(** * flask-restless-datamodel: the schema renderer, embedded and verified

    A shallow embedding of [flask_restless_datamodel/render.py] and of the
    registration logic of [flask_restless_datamodel/datamodel.py].

    Python dictionaries whose iteration order does not reach the output are
    finite maps ([gmap]); the one dictionary the code iterates over after
    filling it by key ([flagged_for_inheritence], [proxies]) is an
    insertion-ordered association list.  Exceptions are an error monad.
    The SQLAlchemy metadata a model exposes to the renderer (its columns,
    relationships, hybrid properties, class dictionary, bases and mapper
    arguments) is the input, as records. *)

From stdpp Require Import gmap strings list fin_maps.
From Stdlib Require Import Ascii String.

Local Open Scope string_scope.

(** ** Python values, exceptions and ordered dictionaries *)

Module Py.

Inductive exn :=
| AttributeError
| KeyError
| IndexError
| TypeError.

Inductive result (A : Type) :=
| Ok (a : A)
| Raise (e : exn).
Arguments Ok {A} a.
Arguments Raise {A} e.

Definition bind {A B} (r : result A) (k : A -> result B) : result B :=
  match r with
  | Ok a => k a
  | Raise e => Raise e
  end.

(** [for x in xs: body], threading the mutated state and stopping at the
    first exception. *)
Fixpoint for_each {A S} (xs : list A) (body : S -> A -> result S) (s : S)
  : result S :=
  match xs with
  | [] => Ok s
  | x :: xs' => bind (body s x) (for_each xs' body)
  end.

(** The JSON-serialisable leaves the renderer stores in relation and
    operation descriptors. *)
Inductive value :=
| PNone
| PBool (b : bool)
| PStr (s : string)
| PList (l : list string).

(** [d[k]] on a dictionary: [KeyError] when the key is absent. *)
Definition getitem {V} (d : gmap string V) (k : string) : result V :=
  match d !! k with
  | Some v => Ok v
  | None => Raise KeyError
  end.

(** [l[0]] on a list: [IndexError] when it is empty. *)
Definition first {A} (l : list A) : result A :=
  match l with
  | x :: _ => Ok x
  | [] => Raise IndexError
  end.

(** An insertion-ordered dictionary: [d[k] = v] replaces the value in
    place when [k] is present and appends otherwise. *)
Fixpoint odict_set {V} (d : list (string * V)) (k : string) (v : V)
  : list (string * V) :=
  match d with
  | [] => [(k, v)]
  | (k', v') :: d' =>
      if String.eqb k' k then (k, v) :: d'
      else (k', v') :: odict_set d' k v
  end.

(** [str.split(sep)] for a one-character separator. *)
Fixpoint split (sep : ascii) (s : string) : list string :=
  match s with
  | EmptyString => [EmptyString]
  | String c r =>
      if Ascii.eqb c sep then EmptyString :: split sep r
      else match split sep r with
           | h :: t => String c h :: t
           | [] => [String c EmptyString]
           end
  end.

(** [l[-1]] for the list [split] returns, which is never empty. *)
Definition last_item (l : list string) : string := default "" (last l).

Definition lower_ascii (c : ascii) : ascii :=
  let n := nat_of_ascii c in
  if (65 <=? n)%nat && (n <=? 90)%nat then ascii_of_nat (n + 32) else c.

(** [str.lower()] on the ASCII class names SQLAlchemy's types carry. *)
Fixpoint lower (s : string) : string :=
  match s with
  | EmptyString => EmptyString
  | String c r => String (lower_ascii c) (lower r)
  end.

(** Whether the character [c] occurs in [s]. *)
Fixpoint occurs (c : ascii) (s : string) : bool :=
  match s with
  | EmptyString => false
  | String c' r => Ascii.eqb c' c || occurs c r
  end.

(** [s.startswith(p)] *)
Definition startswith (s p : string) : bool := String.prefix p s.

(** Truthiness of a list: [if xs:]. *)
Definition truthy {A} (xs : list A) : bool :=
  match xs with
  | [] => false
  | _ :: _ => true
  end.

(** [x in xs] for a list of strings. *)
Definition contains (xs : list string) (x : string) : bool :=
  bool_decide (x ∈ xs).

(** [d.update(other)]: every entry of [other] is written into [d]. *)
Definition update {V} (d other : gmap string V) : gmap string V :=
  other ∪ d.

(** [None] or a string, as a stored value. *)
Definition of_option (o : option string) : value :=
  match o with
  | Some s => PStr s
  | None => PNone
  end.

End Py.

Import Py.

(** The monad notation of stdpp ([x ← c; k]) for [result]. *)
#[global] Instance result_bind : MBind result := λ A B k r, Py.bind r k.

(** ** The metadata of a model, as the renderer reads it *)

Module Meta.

(** A column: [column.name] and [column.type.__class__.__name__]. *)
Record Column := {
  col_name : string;
  col_type_class : string;
}.

(** [rel.direction], an enumeration whose [.name] the renderer emits. *)
Inductive Direction :=
| ONETOMANY
| MANYTOONE
| MANYTOMANY.

Definition direction_name (d : Direction) : string :=
  match d with
  | ONETOMANY => "ONETOMANY"
  | MANYTOONE => "MANYTOONE"
  | MANYTOMANY => "MANYTOMANY"
  end.

(** A relationship of the mapper: [rel.key], [rel.direction],
    [rel.uselist], [rel.mapper.class_.__name__], [rel.back_populates]
    ([None] when no reciprocal is declared) and the keys of
    [list(rel.local_columns)]. *)
Record Relationship := {
  rel_key : string;
  rel_direction : Direction;
  rel_uselist : bool;
  rel_mapper_class : string;
  rel_back_populates : option string;
  rel_local_columns : list string;
}.

(** A hybrid property object; [__name__] is the only attribute read. *)
Record HybridProperty := {
  hp_name : string;
}.

(** [attr.remote_attr.property] of an association proxy. *)
Inductive Property :=
| RelationshipProperty (remote_class : string)
| ColumnProperty (columns : list Column)
| OtherProperty.

(** An association proxy bound to its model: the property of its remote
    attribute when [hasattr(remote_attr, 'property')], and [attr.scalar]. *)
Record AssociationProxy := {
  remote_property : option Property;
  scalar : bool;
}.

(** A value of [model.__dict__]. *)
Inductive DictValue :=
| DProxy (p : AssociationProxy)
| DOther.

Inductive ParamKind :=
| POSITIONAL_ONLY
| POSITIONAL_OR_KEYWORD
| VAR_POSITIONAL
| KEYWORD_ONLY
| VAR_KEYWORD.

(** A parameter of [inspect.signature(fn)]; [param_has_default] is
    [param.default != param.empty]. *)
Record Param := {
  param_name : string;
  param_kind : ParamKind;
  param_has_default : bool;
}.

(** [polymorphic_on] is a column name or a column object with a [key]. *)
Inductive PolymorphicOn :=
| OnName (s : string)
| OnColumn (key : string).

(** [__mapper_args__], with the two keys the renderer looks up. *)
Record MapperArgs := {
  polymorphic_identity : option string;
  polymorphic_on : option PolymorphicOn;
}.

(** A class found in [model.__bases__]: its identity, [__name__], the
    identities of the classes of its MRO (itself included) and its
    [__mapper_args__] when it has the attribute. *)
Record Class := {
  cls_id : nat;
  cls_name : string;
  cls_mro : list nat;
  cls_mapper_args : option MapperArgs;
}.

(** The database handle: [db.Model] is the root class of all models. *)
Record DB := {
  db_Model : nat;
}.

Record Model := {
  name : string;
  bases : list Class;
  mapper_args : option MapperArgs;
  table_columns : list Column;
  relationships : list Relationship;
  hybrid_properties : list HybridProperty;
  class_dict : list (string * DictValue);
  functions : list (string * list Param);
  primary_key : string;
}.

(** What is passed where Python passes an object to [is_valid]. *)
Inductive Object :=
| Str (s : string)
| Hybrid (h : HybridProperty).

End Meta.

Import Meta.

(** ** [get_is_valid_validator] *)

Module Filter.

(** [is_valid], the closure [get_is_valid_validator(included, excluded)]
    returns.  [column.split] exists on strings only. *)
Definition is_valid (included excluded : list string) (column : Object)
  : result bool :=
  match column with
  | Str column =>
      let column := last_item (split "." column) in
      let valid_excl :=
        if truthy excluded then negb (contains excluded column) else true in
      let valid_incl :=
        if truthy included then contains included column else true in
      Ok (valid_excl && valid_incl)
  | Hybrid _ => Raise AttributeError
  end.

Definition get_is_valid_validator (included excluded : list string)
  : Object -> result bool :=
  is_valid included excluded.

End Filter.

(** ** The rendered schema *)

Module Schema.

(** A relation descriptor and an operation descriptor are dictionaries of
    leaves; which keys they hold is part of what is rendered. *)
Abbreviation Descriptor := (gmap string value).

(** The dictionary under the [polymorphic] key of a model descriptor, with
    the three keys [resolve_inheritance] writes; [None] is an absent key. *)
Record PolymorphicInfo := {
  parent : option string;
  on : option string;
  identities : option (gmap string string);
}.

Definition empty_info : PolymorphicInfo :=
  {| parent := None; on := None; identities := None |}.

(** The dictionary rendered for one model.  [methods] and [polymorphic]
    are keys added after [ClassDefinitionRenderer.render]; [None] is an
    absent key. *)
Record ModelDescriptor := {
  pk_name : string;
  collection_name : string;
  attributes : gmap string string;
  relations : gmap string Descriptor;
  methods : option (gmap string Descriptor);
  polymorphic : option PolymorphicInfo;
}.

Definition set_attributes (d : ModelDescriptor) (a : gmap string string) :=
  {| pk_name := pk_name d; collection_name := collection_name d;
     attributes := a; relations := relations d;
     methods := methods d; polymorphic := polymorphic d |}.

Definition set_relations (d : ModelDescriptor) (r : gmap string Descriptor) :=
  {| pk_name := pk_name d; collection_name := collection_name d;
     attributes := attributes d; relations := r;
     methods := methods d; polymorphic := polymorphic d |}.

Definition set_methods (d : ModelDescriptor) (m : gmap string Descriptor) :=
  {| pk_name := pk_name d; collection_name := collection_name d;
     attributes := attributes d; relations := relations d;
     methods := Some m; polymorphic := polymorphic d |}.

Definition set_polymorphic (d : ModelDescriptor) (p : PolymorphicInfo) :=
  {| pk_name := pk_name d; collection_name := collection_name d;
     attributes := attributes d; relations := relations d;
     methods := methods d; polymorphic := Some p |}.

(** The keyword arguments [DataModelRenderer.render] passes on for a
    model. *)
Record Conf := {
  conf_collection_name : string;
  conf_bp_name : string;
  conf_included : list string;
  conf_excluded : list string;
}.

End Schema.

Import Schema.

(** ** [ClassDefinitionRenderer] *)

Module ClassDefinitionRenderer.

Definition render_attributes (model : Model)
    (is_valid : Object -> result bool) : result (gmap string string) :=
  for_each (table_columns model)
    (λ attribute_dict column,
       ok ← is_valid (Str (col_name column));
       if ok : bool then
         let ctype := lower (col_type_class column) in
         Ok (<[col_name column := ctype]> attribute_dict)
       else Ok attribute_dict)
    ∅.

Definition render_relations (model : Model)
    (is_valid : Object -> result bool) : result (gmap string Descriptor) :=
  for_each (relationships model)
    (λ foreign_keys rel,
       ok ← is_valid (Str (rel_key rel));
       if ok : bool then
         let direction := direction_name (rel_direction rel) in
         let direction :=
           if String.eqb (direction_name (rel_direction rel)) "ONETOMANY"
              && negb (rel_uselist rel)
           then "ONETOONE" else direction in
         let foreign_keys :=
           <[rel_key rel :=
               {[ "foreign_model" := PStr (rel_mapper_class rel);
                  "relation_type" := PStr direction;
                  "backref" := of_option (rel_back_populates rel) ]}]>
             foreign_keys in
         if String.eqb (direction_name (rel_direction rel)) "MANYTOONE" then
           local_id ← first (rel_local_columns rel);
           Ok (alter (insert "local_column" (PStr local_id))
                     (rel_key rel) foreign_keys)
         else Ok foreign_keys
       else Ok foreign_keys)
    ∅.

(** [model.hybrid_properties] is the list the comprehension over
    [all_orm_descriptors] keeps; the loop hands each property object
    itself to [is_valid]. *)
Definition render_hybrid_properties (model : Model)
    (is_valid : Object -> result bool) : result (gmap string string) :=
  for_each (hybrid_properties model)
    (λ attribute_dict attribute,
       ok ← is_valid (Hybrid attribute);
       if ok : bool then Ok (<[hp_name attribute := "hybrid"]> attribute_dict)
       else Ok attribute_dict)
    ∅.

(** The first loop of [render_association_proxies]: the proxies of the
    class dictionary whose remote attribute has a [property]. *)
Definition collect_proxies (model : Model)
  : list (string * AssociationProxy) :=
  foldl
    (λ proxies kv,
       match snd kv with
       | DProxy v =>
           match remote_property v with
           | Some _ => odict_set proxies (fst kv) v
           | None => proxies
           end
       | DOther => proxies
       end)
    [] (class_dict model).

(** [render_association_proxies] updates the two dictionaries it is given
    in place; here it returns them. *)
Definition render_association_proxies (model : Model)
    (attribute_dict : gmap string string)
    (foreign_keys : gmap string Descriptor)
  : result (gmap string string * gmap string Descriptor) :=
  let proxies := collect_proxies model in
  for_each proxies
    (λ dicts na,
       let attribute_dict := fst dicts in
       let foreign_keys := snd dicts in
       let name := fst na in
       let attr := snd na in
       match remote_property attr with
       | Some (RelationshipProperty remote_class) =>
           Ok (attribute_dict,
               <[name :=
                   {[ "foreign_model" := PStr remote_class;
                      "relation_type" :=
                        PStr (if scalar attr then "MANYTOONE"
                              else "ONETOMANY");
                      "is_proxy" := PBool true ]}]> foreign_keys)
       | Some (ColumnProperty columns) =>
           column ← first columns;
           Ok (<[name := lower (col_type_class column)]> attribute_dict,
               foreign_keys)
       | Some OtherProperty => Ok (attribute_dict, foreign_keys)
       | None => Raise AttributeError
       end)
    (attribute_dict, foreign_keys).

(** [primary_key_name] and [register_serializer] are Flask-Restless's and
    the helpers module's; the primary key name is read off the model. *)
Definition render (model : Model) (collection_name bp_name : string)
    (included excluded : list string) : result ModelDescriptor :=
  let is_valid := Filter.get_is_valid_validator included excluded in
  attribute_dict ← render_attributes model is_valid;
  foreign_keys ← render_relations model is_valid;
  hybrids ← render_hybrid_properties model is_valid;
  let attribute_dict := update attribute_dict hybrids in
  dicts ← render_association_proxies model attribute_dict foreign_keys;
  let pk_name := primary_key model in
  Ok {| pk_name := pk_name;
        collection_name := collection_name;
        attributes := fst dicts;
        relations := snd dicts;
        methods := None;
        polymorphic := None |}.

End ClassDefinitionRenderer.

(** ** [DataModelRenderer] *)

Module DataModelRenderer.

(** The dictionary [flag_inheritance_models] returns for a child. *)
Record Inheritance := {
  inh_on : string;
  inh_parent : string;
  inh_identity : string;
}.

(** [issubclass(kls, root)] *)
Definition issubclass (kls : Class) (root : nat) : bool :=
  bool_decide (root ∈ cls_mro kls).

(** The loop over [model.__bases__]: the last base that is a model class
    other than [db.Model] itself. *)
Definition find_parent (db : DB) (model : Model) : option Class :=
  foldl
    (λ parent kls,
       if issubclass kls (db_Model db)
          && negb (Nat.eqb (cls_id kls) (db_Model db))
       then Some kls else parent)
    None (bases model).

(** Returns [None] (here [Ok None]) when the model is not polymorphic or
    has no parent. *)
Definition flag_inheritance_models (db : DB) (model : Model)
  : result (option Inheritance) :=
  match mapper_args model with
  | Some {| polymorphic_identity := Some identity |} =>
      match find_parent db model with
      | Some parent =>
          args ← match cls_mapper_args parent with
                 | Some args => Ok args
                 | None => Raise AttributeError
                 end;
          on ← match polymorphic_on args with
               | Some on => Ok on
               | None => Raise KeyError
               end;
          let on := match on with
                    | OnName s => s
                    | OnColumn key => key
                    end in
          Ok (Some {| inh_on := on;
                      inh_parent := cls_name parent;
                      inh_identity := identity |})
      | None => Ok None
      end
  | _ => Ok None
  end.

(** [idef] and [odef] are references into [data_model]: every statement
    is an update of the entry under the key, read when the statement
    runs, so that the two being one object is covered. *)
Definition resolve_inheritance (model : string)
    (inheriting_from : Inheritance)
    (data_model : gmap string ModelDescriptor)
  : result (gmap string ModelDescriptor) :=
  let p := inh_parent inheriting_from in
  idef ← getitem data_model p;
  _ ← getitem data_model model;
  let data_model :=
    alter (λ odef,
             set_attributes odef (update (attributes odef) (attributes idef)))
          model data_model in
  idef ← getitem data_model p;
  let data_model :=
    alter (λ odef,
             set_relations odef (update (relations odef) (relations idef)))
          model data_model in
  let data_model :=
    alter (λ odef,
             set_polymorphic odef
               {| parent := Some p; on := None; identities := None |})
          model data_model in
  let data_model :=
    alter (λ idef,
             let info := default empty_info (polymorphic idef) in
             set_polymorphic idef
               {| parent := parent info;
                  on := Some (inh_on inheriting_from);
                  identities := identities info |})
          p data_model in
  let data_model :=
    alter (λ idef,
             let info := default empty_info (polymorphic idef) in
             set_polymorphic idef
               {| parent := parent info;
                  on := on info;
                  identities :=
                    Some (<[inh_identity inheriting_from := model]>
                            (default ∅ (identities info))) |})
          p data_model in
  Ok data_model.

(** The first loop of [render]: one step for a [(model, kwargs)] item. *)
Definition render_model (db : DB) (method_renderer : gmap string (gmap string Descriptor))
    (st : gmap string ModelDescriptor * list (string * Inheritance))
    (item : Model * Conf)
  : result (gmap string ModelDescriptor * list (string * Inheritance)) :=
  let data_model := fst st in
  let flagged_for_inheritence := snd st in
  let model := fst item in
  let kwargs := snd item in
  let name := name model in
  model_render ←
    ClassDefinitionRenderer.render model
      (conf_collection_name kwargs) (conf_bp_name kwargs)
      (conf_included kwargs) (conf_excluded kwargs);
  methods ← getitem method_renderer name;
  let model_render := set_methods model_render methods in
  polymorphic_info ← flag_inheritance_models db model;
  let flagged_for_inheritence :=
    match polymorphic_info with
    | Some info => odict_set flagged_for_inheritence name info
    | None => flagged_for_inheritence
    end in
  Ok (<[name := model_render]> data_model, flagged_for_inheritence).

(** [models] is the dictionary from model class to keyword arguments, in
    its iteration order; [method_renderer] is [method_renderer.methods]. *)
Definition render (db : DB) (models : list (Model * Conf))
    (method_renderer : gmap string (gmap string Descriptor))
  : result (gmap string ModelDescriptor) :=
  st ← for_each models (render_model db method_renderer) (∅, []);
  for_each (snd st)
    (λ data_model flagged,
       resolve_inheritance (fst flagged) (snd flagged) data_model)
    (fst st).

End DataModelRenderer.

(** ** [MethodDefinitionRenderer] *)

Module MethodDefinitionRenderer.

(** The four accumulators of the loop over [spec.parameters]. *)
Record Signature := {
  required : list string;
  optional : list string;
  argsvar : option string;
  kwargsvar : option string;
}.

Definition classify (sig : Signature) (param : Param) : Signature :=
  if String.eqb (param_name param) "self" then sig
  else match param_kind param with
       | VAR_KEYWORD =>
           {| required := required sig; optional := optional sig;
              argsvar := argsvar sig; kwargsvar := Some (param_name param) |}
       | VAR_POSITIONAL =>
           {| required := required sig; optional := optional sig;
              argsvar := Some (param_name param); kwargsvar := kwargsvar sig |}
       | _ =>
           if param_has_default param then
             {| required := required sig;
                optional := optional sig ++ [param_name param];
                argsvar := argsvar sig; kwargsvar := kwargsvar sig |}
           else
             {| required := required sig ++ [param_name param];
                optional := optional sig;
                argsvar := argsvar sig; kwargsvar := kwargsvar sig |}
       end.

(** [model.functions] is [inspect.getmembers(model, isfunction)] with the
    parameters of each function's signature; [include_internal] is the
    option [include_model_internal_functions]. *)
Definition compile_method_list (include_internal : bool) (model : Model)
  : gmap string Descriptor :=
  foldl
    (λ methods nf,
       let name := fst nf in
       if startswith name "__" then methods
       else if startswith name "_" && negb include_internal then methods
       else
         let sig :=
           foldl classify
             {| required := []; optional := [];
                argsvar := None; kwargsvar := None |}
             (snd nf) in
         <[name :=
             {[ "args" := PList (required sig);
                "kwargs" := PList (optional sig);
                "argsvar" := of_option (argsvar sig);
                "kwargsvar" := of_option (kwargsvar sig) ]}]> methods)
    ∅ (functions model).

(** [render] stores the method list under the model's name; the URL rules
    [add_method_endpoints] registers live in the Flask application. *)
Definition render (include_internal : bool)
    (methods : gmap string (gmap string Descriptor)) (model : Model)
  : gmap string (gmap string Descriptor) :=
  <[name model := compile_method_list include_internal model]> methods.

End MethodDefinitionRenderer.

(** ** [DataModel], the registration of models one at a time *)

Module DataModel.

(** A value of the dictionary [register_model] expects from
    [render_polymorphic]: a string (a class name, an identity) or a
    dictionary from identity to class name. *)
Inductive PolyValue :=
| VStr (s : string)
| VDict (d : gmap string string).

(** A [DataModelRenderer] object: [__init__(self, app, db)] keeps the
    application and the database handle, of which the renderer reads the
    second only. *)
Record Renderer := {
  renderer_db : DB;
}.

(** The call [DataModelRenderer(...)] with [positional] arguments, the
    second of which is the database handle: [__init__] takes the
    application and the database handle, and a call with any other number
    of arguments is a [TypeError]. *)
Definition new_renderer (positional : nat) (db : DB) : result Renderer :=
  if Nat.eqb positional 2 then Ok {| renderer_db := db |}
  else Raise TypeError.

(** Whether the class declares an attribute of that name: a column, a
    relationship, a hybrid property, another entry of its dictionary or a
    function. *)
Definition class_has (model : Model) (attr : string) : bool :=
  bool_decide (attr ∈ col_name <$> table_columns model)
  || bool_decide (attr ∈ rel_key <$> relationships model)
  || bool_decide (attr ∈ hp_name <$> hybrid_properties model)
  || bool_decide (attr ∈ fst <$> class_dict model)
  || bool_decide (attr ∈ fst <$> functions model).

(** [renderer.render(model, kwargs)], as [register_model] calls it:
    [DataModelRenderer.render(self, models, method_renderer)] receives the
    model class for [models] and, after it has created its two empty
    dictionaries and its [ClassDefinitionRenderer], starts its loop with
    [models.items()].  A class that declares no [items] raises
    [AttributeError]; an attribute of a mapped class under that name is
    not a call without arguments ([TypeError]). *)
Definition render_call (renderer : Renderer) (model : Model) (kwargs : Conf)
  : result (gmap string ModelDescriptor) :=
  if class_has model "items" then Raise TypeError else Raise AttributeError.

(** [renderer.render_polymorphic]: [DataModelRenderer] has no such
    attribute, and the lookup fails before the arguments of the call are
    evaluated. *)
Definition render_polymorphic_call
  : result (gmap string PolyValue) :=
  Raise AttributeError.

(** [self.data_model], [self.polymorphic_info] and [self.model_renderer].
    An entry of [data_model] is the dictionary [render] returned, with the
    polymorphic dictionary under the key [polymorphic] when that
    dictionary is not empty. *)
Record State := {
  data_model :
    gmap string (gmap string (ModelDescriptor + gmap string PolyValue));
  polymorphic_info : gmap string (gmap string string);
  model_renderer : option Renderer;
}.

(** How a method of [DataModel] ends: it returns or it raises, and either
    way [self] is as the statements that ran have left it. *)
Inductive outcome :=
| Done (self : State)
| Failed (e : exn) (self : State).

Definition state_of (o : outcome) : State :=
  match o with
  | Done self => self
  | Failed _ self => self
  end.

(** [DataModel.__init__] *)
Definition init_state : State :=
  {| data_model := ∅; polymorphic_info := ∅; model_renderer := None |}.

(** [DataModel.register_model], statement by statement.  [kwargs] is what
    [get_restless_model_conf] has returned for the model: that method
    replays a request through Flask and writes to neither [data_model]
    nor [polymorphic_info].  [self.polymorphic_info] is a
    [defaultdict(dict)]: reading a missing key stores an empty dictionary
    under it.  A dictionary is not hashable, so it cannot be the parent or
    the identity. *)
Definition register_model (self : State) (model : Model) (kwargs : Conf)
  : outcome :=
  let name := name model in
  match
    renderer ← match model_renderer self with
                | Some renderer => Ok renderer
                | None => Raise AttributeError
                end;
    render_call renderer model kwargs
  with
  | Raise e => Failed e self
  | Ok render =>
      match render_polymorphic_call with
      | Raise e => Failed e self
      | Ok info =>
          let stored (registry : gmap string (gmap string string)) :=
            let render : gmap string (ModelDescriptor + gmap string PolyValue) :=
              if Nat.eqb (size info) 0 then inl <$> render
              else <["polymorphic" := inr info]> (inl <$> render) in
            Done {| data_model := <[name := render]> (data_model self);
                    polymorphic_info := registry;
                    model_renderer := model_renderer self |} in
          match info !! "parent" with
          | Some parent =>
              match info !! "identity" with
              | None => Failed KeyError self
              | Some ident =>
                  match parent with
                  | VDict _ => Failed TypeError self
                  | VStr p =>
                      let identities :=
                        default ∅ (polymorphic_info self !! p) in
                      match ident with
                      | VDict _ =>
                          Failed TypeError
                            {| data_model := data_model self;
                               polymorphic_info :=
                                 <[p := identities]> (polymorphic_info self);
                               model_renderer := model_renderer self |}
                      | VStr i =>
                          stored (<[p := <[i := name]> identities]>
                                    (polymorphic_info self))
                      end
                  end
              end
          | None => stored (polymorphic_info self)
          end
      end
  end.

(** The loop of [init] over the models already registered with
    Flask-Restless, which stops at the first registration that raises. *)
Fixpoint register_each (self : State) (items : list (Model * Conf))
  : outcome :=
  match items with
  | [] => Done self
  | item :: items' =>
      match register_model self (fst item) (snd item) with
      | Done self' => register_each self' items'
      | Failed e self' => Failed e self'
      end
  end.

(** [DataModel.init]: [db] is [api_manager.flask_sqlalchemy_db] and
    [created_apis_for] the models already registered, in the order of the
    dictionary.  The renderer is built from the application, the database
    handle and the options: three arguments. *)
Definition init (self : State) (db : DB)
    (created_apis_for : list (Model * Conf)) : outcome :=
  match new_renderer 3 db with
  | Raise e => Failed e self
  | Ok renderer =>
      register_each
        {| data_model := data_model self;
           polymorphic_info := polymorphic_info self;
           model_renderer := Some renderer |}
        created_apis_for
  end.

(** A call of one of the two methods. *)
Inductive call :=
| Init (db : DB) (created_apis_for : list (Model * Conf))
| Register (model : Model) (kwargs : Conf).

Definition run (self : State) (c : call) : outcome :=
  match c with
  | Init db created_apis_for => init self db created_apis_for
  | Register model kwargs => register_model self model kwargs
  end.

End DataModel.

(** ** Vocabulary of the statements *)

(** What the specification calls the final dot-separated segment of a
    name: the part after the last dot, or the whole name when it has none. *)
Definition final_segment (name seg : string) : Prop :=
  occurs "." seg = false
  ∧ (name = seg ∨ ∃ prefix, name = String.append prefix (String "." seg)).

(** The name passes the filter: [is_valid] returns [True] on it. *)
Definition passes (included excluded : list string) (name : string) : Prop :=
  Filter.is_valid included excluded (Str name) = Ok true.

(** A loop that stores [val x] under [key x] for the items it keeps. *)
Definition put_all {A V} (key : A -> string) (val : A -> V) (keep : A -> bool)
    (xs : list A) (d : gmap string V) : gmap string V :=
  foldl (λ d x, if keep x then <[key x := val x]> d else d) d xs.

(** The boolean [is_valid] computes on a string. *)
Definition keeps (included excluded : list string) (name : string) : bool :=
  match Filter.is_valid included excluded (Str name) with
  | Ok b => b
  | Raise _ => false
  end.

(** The relation type the specification gives a direct relationship. *)
Definition normalized_type (rel : Relationship) : string :=
  match rel_direction rel, rel_uselist rel with
  | ONETOMANY, false => "ONETOONE"
  | d, _ => direction_name d
  end.

(** The dictionary the loop of [render_relations] leaves for [rel]. *)
Definition relation_descriptor (rel : Relationship) : Descriptor :=
  let d : Descriptor :=
    {[ "foreign_model" := PStr (rel_mapper_class rel);
       "relation_type" := PStr (normalized_type rel);
       "backref" := of_option (rel_back_populates rel) ]} in
  match rel_direction rel, rel_local_columns rel with
  | MANYTOONE, c :: _ => <["local_column" := PStr c]> d
  | _, _ => d
  end.

(** The relationship does not make [render_relations] fail: a many-to-one
    relationship has a local column. *)
Definition has_local_column (rel : Relationship) : Prop :=
  rel_direction rel = MANYTOONE → rel_local_columns rel ≠ [].

(** The operation is reflected: its name is not reserved, and not internal
    unless internal operations are asked for. *)
Definition exposed (include_internal : bool) (name : string) : bool :=
  negb (startswith name "__")
  && negb (startswith name "_" && negb include_internal).

(** The accumulators after the loop over the parameters. *)
Definition signature_of (params : list Param)
  : MethodDefinitionRenderer.Signature :=
  foldl MethodDefinitionRenderer.classify
    {| MethodDefinitionRenderer.required := [];
       MethodDefinitionRenderer.optional := [];
       MethodDefinitionRenderer.argsvar := None;
       MethodDefinitionRenderer.kwargsvar := None |}
    params.

(** The dictionary [compile_method_list] stores for a function. *)
Definition method_descriptor (params : list Param) : Descriptor :=
  {[ "args" := PList (MethodDefinitionRenderer.required (signature_of params));
     "kwargs" := PList (MethodDefinitionRenderer.optional (signature_of params));
     "argsvar" := of_option (MethodDefinitionRenderer.argsvar (signature_of params));
     "kwargsvar" :=
       of_option (MethodDefinitionRenderer.kwargsvar (signature_of params)) ]}.

(** The proxies of a class dictionary whose remote attribute has a
    [property], in the order of the dictionary. *)
Definition usable_proxies (dict : list (string * DictValue))
  : list (string * AssociationProxy) :=
  omap (λ kv, match snd kv with
              | DProxy v =>
                  match remote_property v with
                  | Some _ => Some (fst kv, v)
                  | None => None
                  end
              | DOther => None
              end) dict.

(** The relation descriptor of a proxy onto a relationship. *)
Definition proxy_descriptor (remote_class : string) (is_scalar : bool)
  : Descriptor :=
  {[ "foreign_model" := PStr remote_class;
     "relation_type" := PStr (if is_scalar then "MANYTOONE" else "ONETOMANY");
     "is_proxy" := PBool true ]}.

(** What the second loop of [render_association_proxies] leaves under the
    name of a proxy, given the two dictionaries before the loop. *)
Definition proxy_outcome (attr : AssociationProxy) (name : string)
    (ad ad' : gmap string string) (fk fk' : gmap string Descriptor) : Prop :=
  match remote_property attr with
  | Some (RelationshipProperty remote_class) =>
      fk' !! name = Some (proxy_descriptor remote_class (scalar attr))
      ∧ ad' !! name = ad !! name
  | Some (ColumnProperty (c :: _)) =>
      ad' !! name = Some (lower (col_type_class c))
      ∧ fk' !! name = fk !! name
  | _ => ad' !! name = ad !! name ∧ fk' !! name = fk !! name
  end.

(** The proxy does not make [render_association_proxies] fail: it has a
    remote property, with a column when it is a column property. *)
Definition proxy_renders (attr : AssociationProxy) : Prop :=
  match remote_property attr with
  | Some (ColumnProperty []) => False
  | Some _ => True
  | None => False
  end.

(** What [resolve_inheritance] does to the child's entry, given the
    parent's. *)
Definition merge_child (idef : ModelDescriptor) (p : string)
    (odef : ModelDescriptor) : ModelDescriptor :=
  set_polymorphic
    (set_relations
       (set_attributes odef (update (attributes odef) (attributes idef)))
       (update (relations odef) (relations idef)))
    {| parent := Some p; on := None; identities := None |}.

(** What [resolve_inheritance] does to the parent's entry. *)
Definition record_child (inh : DataModelRenderer.Inheritance) (model : string)
    (idef : ModelDescriptor) : ModelDescriptor :=
  let info := default empty_info (polymorphic idef) in
  set_polymorphic idef
    {| parent := parent info;
       on := Some (DataModelRenderer.inh_on inh);
       identities :=
         Some (<[DataModelRenderer.inh_identity inh := model]>
                 (default ∅ (identities info))) |}.

(** The parent a descriptor names, if any. *)
Definition parent_of (d : ModelDescriptor) : option string :=
  info ← polymorphic d; parent info.

(** The entry of [data_model] under [n] after [resolve_inheritance] has
    run for the child [model], in terms of the entry [d] before; [idef] is
    the parent's entry before. *)
Definition entry_after (inh : DataModelRenderer.Inheritance) (model : string)
    (idef : ModelDescriptor) (n : string) (d : ModelDescriptor)
  : ModelDescriptor :=
  let d1 :=
    if decide (n = model)
    then merge_child idef (DataModelRenderer.inh_parent inh) d else d in
  if decide (n = DataModelRenderer.inh_parent inh)
  then record_child inh model d1 else d1.

(** An attribute of a model in a rendered schema, if the rendering
    succeeded and holds it. *)
Definition attribute_in (r : result (gmap string ModelDescriptor))
    (model key : string) : option string :=
  match r with
  | Ok dm => d ← dm !! model; attributes d !! key
  | Raise _ => None
  end.

(** A relation of a model in a rendered schema. *)
Definition relation_in (r : result (gmap string ModelDescriptor))
    (model key : string) : option Descriptor :=
  match r with
  | Ok dm => d ← dm !! model; relations d !! key
  | Raise _ => None
  end.

(** The [polymorphic] entry of a model in a rendered schema. *)
Definition polymorphic_in (r : result (gmap string ModelDescriptor))
    (model : string) : option PolymorphicInfo :=
  match r with
  | Ok dm => d ← dm !! model; polymorphic d
  | Raise _ => None
  end.

(** An attribute of a model as [ClassDefinitionRenderer.render] alone
    renders it, before any inheritance is resolved. *)
Definition own_attribute (m : Model) (kwargs : Conf) (key : string)
  : option string :=
  match ClassDefinitionRenderer.render m
          (conf_collection_name kwargs) (conf_bp_name kwargs)
          (conf_included kwargs) (conf_excluded kwargs) with
  | Ok d => attributes d !! key
  | Raise _ => None
  end.

(** The names under which a model can render a scalar: its column names,
    its hybrid properties and its proxies onto columns. *)
Definition scalar_names (m : Model) : list string :=
  ((col_name <$> table_columns m)
   ++ (hp_name <$> hybrid_properties m)
   ++ omap (λ kv, match snd kv with
                  | DProxy q =>
                      match remote_property q with
                      | Some (ColumnProperty _) => Some (fst kv)
                      | _ => None
                      end
                  | DOther => None
                  end) (class_dict m))%list.

(** The names under which a model can render a relation: its relationship
    keys and its proxies onto relationships. *)
Definition relational_names (m : Model) : list string :=
  ((rel_key <$> relationships m)
   ++ omap (λ kv, match snd kv with
                  | DProxy q =>
                      match remote_property q with
                      | Some (RelationshipProperty _) => Some (fst kv)
                      | _ => None
                      end
                  | DOther => None
                  end) (class_dict m))%list.


(** A model of the collection that [flag_inheritance_models] flags as a
    child of the model named [p], with what it reports. *)
Definition child_of (db : DB) (models : list (Model * Conf)) (p : string)
    (c : Model) (inh : DataModelRenderer.Inheritance) : Prop :=
  (∃ kw, (c, kw) ∈ models)
  ∧ DataModelRenderer.flag_inheritance_models db c = Ok (Some inh)
  ∧ DataModelRenderer.inh_parent inh = p.

(** The [DataModel] after a sequence of calls of [init] and
    [register_model] on a new object, whether they return or raise. *)
Definition after_calls (calls : list DataModel.call) : DataModel.State :=
  foldl (λ self c, DataModel.state_of (DataModel.run self c))
    DataModel.init_state calls.

(** The test of [flag_inheritance_models] on a base: a model class other
    than [db.Model] itself. *)
Definition eligible (db : DB) (kls : Class) : bool :=
  DataModelRenderer.issubclass kls (db_Model db)
  && negb (Nat.eqb (cls_id kls) (db_Model db)).

(** The name under which a discriminator is recorded. *)
Definition discriminator (on : PolymorphicOn) : string :=
  match on with
  | OnName s => s
  | OnColumn key => key
  end.

(** A parameter that is neither the receiver nor variadic. *)
Definition is_plain (p : Param) : bool :=
  negb (String.eqb (param_name p) "self")
  && match param_kind p with
     | VAR_POSITIONAL | VAR_KEYWORD => false
     | _ => true
     end.

Definition is_required (p : Param) : bool :=
  is_plain p && negb (param_has_default p).

Definition is_optional (p : Param) : bool :=
  is_plain p && param_has_default p.

(** A variadic parameter of the given kind, other than the receiver. *)
Definition is_variadic (kind : ParamKind) (p : Param) : bool :=
  negb (String.eqb (param_name p) "self")
  && match kind, param_kind p with
     | VAR_POSITIONAL, VAR_POSITIONAL => true
     | VAR_KEYWORD, VAR_KEYWORD => true
     | _, _ => false
     end.

(** The names of the parameters a test keeps, in declaration order. *)
Definition names_of (keep : Param → bool) (params : list Param)
  : list string :=
  param_name <$> List.filter keep params.

(** ** Sample models *)

Module Sample.

Definition db : DB := {| db_Model := 0 |}.

(** [db.Model] as a base class. *)
Definition Model_class : Class :=
  {| cls_id := 0; cls_name := "Model"; cls_mro := [0];
     cls_mapper_args := None |}.

Definition self_param : Param :=
  {| param_name := "self"; param_kind := POSITIONAL_OR_KEYWORD;
     param_has_default := false |}.

Definition computers : Relationship :=
  {| rel_key := "computers"; rel_direction := ONETOMANY;
     rel_uselist := true; rel_mapper_class := "Computer";
     rel_back_populates := Some "owner"; rel_local_columns := ["id"] |}.

(** One-to-many by direction, scalar on the remote side, no reciprocal. *)
Definition passport : Relationship :=
  {| rel_key := "passport"; rel_direction := ONETOMANY;
     rel_uselist := false; rel_mapper_class := "Passport";
     rel_back_populates := None; rel_local_columns := ["id"] |}.

Definition employer : Relationship :=
  {| rel_key := "employer"; rel_direction := MANYTOONE;
     rel_uselist := false; rel_mapper_class := "Company";
     rel_back_populates := Some "staff";
     rel_local_columns := ["employer_id"] |}.

Definition greet : string * list Param :=
  ("greet",
   [ self_param;
     {| param_name := "other"; param_kind := POSITIONAL_OR_KEYWORD;
        param_has_default := false |};
     {| param_name := "loud"; param_kind := POSITIONAL_OR_KEYWORD;
        param_has_default := true |} ]).

Definition Person : Model :=
  {| name := "Person";
     bases := [Model_class];
     mapper_args := None;
     table_columns :=
       [ {| col_name := "id"; col_type_class := "Integer" |};
         {| col_name := "name"; col_type_class := "Unicode" |};
         {| col_name := "employer_id"; col_type_class := "Integer" |} ];
     relationships := [computers; passport; employer];
     hybrid_properties := [];
     class_dict := [];
     functions :=
       [ ("greet",
          [ self_param;
            {| param_name := "other"; param_kind := POSITIONAL_OR_KEYWORD;
               param_has_default := false |};
            {| param_name := "loud"; param_kind := POSITIONAL_OR_KEYWORD;
               param_has_default := true |} ]);
         ("_touch", [self_param]) ];
     primary_key := "id" |}.

(** A model with association proxies: onto a relationship, onto a column,
    and onto an attribute without a property. *)
Definition Article : Model :=
  {| name := "Article";
     bases := [Model_class];
     mapper_args := None;
     table_columns :=
       [ {| col_name := "id"; col_type_class := "Integer" |};
         {| col_name := "title"; col_type_class := "String" |} ];
     relationships := [];
     hybrid_properties := [];
     class_dict :=
       [ ("title", DOther);
         ("keywords",
          DProxy {| remote_property := Some (RelationshipProperty "Keyword");
                    scalar := false |});
         ("author_name",
          DProxy {| remote_property :=
                      Some (ColumnProperty
                              [ {| col_name := "name";
                                   col_type_class := "Unicode" |} ]);
                    scalar := true |});
         ("shadow",
          DProxy {| remote_property := None; scalar := false |}) ];
     functions := [];
     primary_key := "id" |}.

(** A model with a hybrid property. *)
Definition Customer : Model :=
  {| name := "Customer";
     bases := [Model_class];
     mapper_args := None;
     table_columns :=
       [ {| col_name := "id"; col_type_class := "Integer" |};
         {| col_name := "first_name"; col_type_class := "String" |};
         {| col_name := "last_name"; col_type_class := "String" |} ];
     relationships := [];
     hybrid_properties := [ {| hp_name := "full_name" |} ];
     class_dict := [];
     functions := [];
     primary_key := "id" |}.

(** A joined-table hierarchy Animal → Mammal → Cat: each class has its own
    table, with its own [id] column. *)
Definition Animal_args : MapperArgs :=
  {| polymorphic_identity := Some "animal";
     polymorphic_on := Some (OnColumn "type") |}.

Definition Mammal_args : MapperArgs :=
  {| polymorphic_identity := Some "mammal";
     polymorphic_on := Some (OnName "type") |}.

Definition Cat_args : MapperArgs :=
  {| polymorphic_identity := Some "cat"; polymorphic_on := None |}.

Definition Animal_class : Class :=
  {| cls_id := 1; cls_name := "Animal"; cls_mro := [1; 0];
     cls_mapper_args := Some Animal_args |}.

Definition Mammal_class : Class :=
  {| cls_id := 2; cls_name := "Mammal"; cls_mro := [2; 1; 0];
     cls_mapper_args := Some Mammal_args |}.

Definition Animal : Model :=
  {| name := "Animal";
     bases := [Model_class];
     mapper_args := Some Animal_args;
     table_columns :=
       [ {| col_name := "id"; col_type_class := "Integer" |};
         {| col_name := "type"; col_type_class := "String" |};
         {| col_name := "name"; col_type_class := "Unicode" |} ];
     relationships := [];
     hybrid_properties := [];
     class_dict := [];
     functions := [];
     primary_key := "id" |}.

Definition Mammal : Model :=
  {| name := "Mammal";
     bases := [Animal_class];
     mapper_args := Some Mammal_args;
     table_columns :=
       [ {| col_name := "id"; col_type_class := "BigInteger" |};
         {| col_name := "fur"; col_type_class := "String" |} ];
     relationships := [];
     hybrid_properties := [];
     class_dict := [];
     functions := [];
     primary_key := "id" |}.

Definition Cat : Model :=
  {| name := "Cat";
     bases := [Mammal_class];
     mapper_args := Some Cat_args;
     table_columns :=
       [ {| col_name := "id"; col_type_class := "BigInteger" |};
         {| col_name := "lives"; col_type_class := "Integer" |} ];
     relationships := [];
     hybrid_properties := [];
     class_dict := [];
     functions := [];
     primary_key := "id" |}.

Definition conf (collection : string) : Conf :=
  {| conf_collection_name := collection; conf_bp_name := "api";
     conf_included := []; conf_excluded := [] |}.

(** [method_renderer.methods] after the method renderer has rendered the
    models. *)
Definition methods_of (models : list Model)
  : gmap string (gmap string Descriptor) :=
  foldl (MethodDefinitionRenderer.render false) ∅ models.

Definition zoo_methods : gmap string (gmap string Descriptor) :=
  methods_of [Animal; Mammal; Cat].

(** The entries of Animal and Mammal before inheritance is resolved. *)
Definition Animal_def : ModelDescriptor :=
  {| pk_name := "id"; collection_name := "animals";
     attributes :=
       {[ "id" := "integer"; "type" := "string"; "name" := "unicode" ]};
     relations := ∅; methods := Some ∅; polymorphic := None |}.

Definition Mammal_def : ModelDescriptor :=
  {| pk_name := "id"; collection_name := "mammals";
     attributes := {[ "id" := "biginteger"; "fur" := "string" ]};
     relations := ∅; methods := Some ∅; polymorphic := None |}.

Definition zoo : gmap string ModelDescriptor :=
  {[ "Animal" := Animal_def; "Mammal" := Mammal_def ]}.

Definition Mammal_inheritance : DataModelRenderer.Inheritance :=
  {| DataModelRenderer.inh_on := "type";
     DataModelRenderer.inh_parent := "Animal";
     DataModelRenderer.inh_identity := "mammal" |}.


Definition office : list (Model * Conf) :=
  [ (Person, conf "people"); (Article, conf "articles") ].

Definition office_methods : gmap string (gmap string Descriptor) :=
  methods_of [Person; Article].

(** The schema composed for [office]. *)
Definition office_schema : gmap string ModelDescriptor :=
  match DataModelRenderer.render db office office_methods with
  | Ok dm => dm
  | Raise _ => ∅
  end.

Definition zoo_models : list (Model * Conf) :=
  [ (Animal, conf "animals"); (Mammal, conf "mammals"); (Cat, conf "cats") ].

(** The schema composed for [zoo_models]. *)
Definition zoo_schema : gmap string ModelDescriptor :=
  match DataModelRenderer.render db zoo_models zoo_methods with
  | Ok dm => dm
  | Raise _ => ∅
  end.

(** A model that declares an identity and has no model class among its
    bases but [db.Model]: a mixin is not a model. *)
Definition Mixin_class : Class :=
  {| cls_id := 9; cls_name := "Mixin"; cls_mro := [9];
     cls_mapper_args := None |}.

Definition Robot : Model :=
  {| name := "Robot";
     bases := [Model_class; Mixin_class];
     mapper_args :=
       Some {| polymorphic_identity := Some "robot";
               polymorphic_on := None |};
     table_columns :=
       [ {| col_name := "id"; col_type_class := "Integer" |};
         {| col_name := "serial"; col_type_class := "String" |} ];
     relationships := [];
     hybrid_properties := [];
     class_dict := [];
     functions := [];
     primary_key := "id" |}.

Definition factory : list (Model * Conf) :=
  [ (Robot, conf "robots"); (Person, conf "people") ].

Definition factory_methods : gmap string (gmap string Descriptor) :=
  methods_of [Robot; Person].

(** The schema composed for [factory]. *)
Definition factory_schema : gmap string ModelDescriptor :=
  match DataModelRenderer.render db factory factory_methods with
  | Ok dm => dm
  | Raise _ => ∅
  end.

(** Cat under a new configuration: another identity, other columns. *)
Definition Cat_again : Model :=
  {| name := "Cat";
     bases := [Mammal_class];
     mapper_args :=
       Some {| polymorphic_identity := Some "kitten";
               polymorphic_on := None |};
     table_columns :=
       [ {| col_name := "id"; col_type_class := "BigInteger" |};
         {| col_name := "whiskers"; col_type_class := "Integer" |} ];
     relationships := [];
     hybrid_properties := [];
     class_dict := [];
     functions := [];
     primary_key := "id" |}.

(** A model with a many-to-one relationship that has lost its local
    columns. *)
Definition dangling : Relationship :=
  {| rel_key := "dangling"; rel_direction := MANYTOONE;
     rel_uselist := false; rel_mapper_class := "Person";
     rel_back_populates := None; rel_local_columns := [] |}.

Definition Stray : Model :=
  {| name := "Stray";
     bases := [Model_class];
     mapper_args := None;
     table_columns := [ {| col_name := "id"; col_type_class := "Integer" |} ];
     relationships := [computers; dangling; employer];
     hybrid_properties := [];
     class_dict := [];
     functions := [];
     primary_key := "id" |}.
(** A model with several bases, two of them model classes. *)
Definition Liger_args : MapperArgs :=
  {| polymorphic_identity := Some "liger"; polymorphic_on := None |}.

Definition Liger : Model :=
  {| name := "Liger";
     bases := [Animal_class; Mammal_class; Mixin_class; Model_class];
     mapper_args := Some Liger_args;
     table_columns := [ {| col_name := "id"; col_type_class := "Integer" |} ];
     relationships := [];
     hybrid_properties := [];
     class_dict := [];
     functions := [];
     primary_key := "id" |}.
(** The hierarchy given children first. *)
Definition zoo_reversed : list (Model * Conf) :=
  [ (Cat, conf "cats"); (Mammal, conf "mammals"); (Animal, conf "animals") ].

Definition zoo_reversed_schema : gmap string ModelDescriptor :=
  match DataModelRenderer.render db zoo_reversed zoo_methods with
  | Ok dm => dm
  | Raise _ => ∅
  end.

(** Animal as [ClassDefinitionRenderer.render] renders it. *)
Definition Animal_own : ModelDescriptor :=
  match ClassDefinitionRenderer.render Animal "animals" "api" [] [] with
  | Ok d => d
  | Raise _ => Animal_def
  end.
(** A hierarchy Staff → Manager with relationships, next to an unrelated
    model whose columns are named like those relationships. *)
Definition Staff_args : MapperArgs :=
  {| polymorphic_identity := Some "staff";
     polymorphic_on := Some (OnName "kind") |}.

Definition Staff_class : Class :=
  {| cls_id := 5; cls_name := "Staff"; cls_mro := [5; 0];
     cls_mapper_args := Some Staff_args |}.

Definition Staff : Model :=
  {| name := "Staff";
     bases := [Model_class];
     mapper_args := Some Staff_args;
     table_columns :=
       [ {| col_name := "id"; col_type_class := "Integer" |};
         {| col_name := "kind"; col_type_class := "String" |};
         {| col_name := "employer_id"; col_type_class := "Integer" |} ];
     relationships := [employer];
     hybrid_properties := [];
     class_dict := [];
     functions := [];
     primary_key := "id" |}.

Definition Manager : Model :=
  {| name := "Manager";
     bases := [Staff_class];
     mapper_args :=
       Some {| polymorphic_identity := Some "manager";
               polymorphic_on := None |};
     table_columns :=
       [ {| col_name := "id"; col_type_class := "Integer" |};
         {| col_name := "level"; col_type_class := "Integer" |} ];
     relationships :=
       [ {| rel_key := "reports"; rel_direction := ONETOMANY;
            rel_uselist := true; rel_mapper_class := "Staff";
            rel_back_populates := None; rel_local_columns := ["id"] |} ];
     hybrid_properties := [];
     class_dict := [];
     functions := [];
     primary_key := "id" |}.

Definition Badge : Model :=
  {| name := "Badge";
     bases := [Model_class];
     mapper_args := None;
     table_columns :=
       [ {| col_name := "id"; col_type_class := "Integer" |};
         {| col_name := "employer"; col_type_class := "String" |};
         {| col_name := "reports"; col_type_class := "Integer" |} ];
     relationships := [];
     hybrid_properties := [];
     class_dict := [];
     functions := [];
     primary_key := "id" |}.

Definition company : list (Model * Conf) :=
  [ (Staff, conf "staff"); (Manager, conf "managers");
    (Badge, conf "badges") ].

Definition company_methods : gmap string (gmap string Descriptor) :=
  methods_of [Staff; Manager; Badge].


End Sample.

(** * Properties *)

(** ** The attribute filter *)

Section FilterFacts.

Lemma split_snoc (sep : ascii) (s : string) :
  ∃ init seg,
    split sep s = (init ++ [seg])%list
    ∧ occurs sep seg = false
    ∧ ((init = [] ∧ s = seg)
       ∨ (init ≠ [] ∧ ∃ prefix, s = String.append prefix (String sep seg))).
Proof.
  induction s as [|c r IH].
  - exists [], EmptyString. simpl. auto.
  - destruct IH as (init & seg & Hsplit & Hocc & Hshape). simpl.
    destruct (Ascii.eqb c sep) eqn:Hc.
    + apply Ascii.eqb_eq in Hc. subst c.
      exists (EmptyString :: init), seg. rewrite Hsplit.
      split; [reflexivity|]. split; [exact Hocc|]. right.
      split; [discriminate|].
      destruct Hshape as [[_ ->] | [_ [prefix ->]]].
      * exists EmptyString. reflexivity.
      * exists (String sep prefix). reflexivity.
    + rewrite Hsplit.
      destruct Hshape as [[-> ->] | [Hne [prefix ->]]].
      * exists [], (String c seg). simpl. rewrite Hc, Hocc. auto.
      * destruct init as [|h t]; [congruence|].
        exists (String c h :: t), seg. simpl.
        split; [reflexivity|]. split; [exact Hocc|]. right.
        split; [discriminate|]. exists (String c prefix). reflexivity.
Qed.

End FilterFacts.

Lemma last_item_final_segment (name : string) :
  final_segment name (last_item (split "." name)).
Proof.
  destruct (split_snoc "." name) as (init & seg & -> & Hocc & Hshape).
  unfold last_item. rewrite last_snoc. simpl. split; [exact Hocc|].
  destruct Hshape as [[_ ->] | [_ H]]; auto.
Qed.

Lemma truthy_nil {A} (xs : list A) : truthy xs = false ↔ xs = [].
Proof. destruct xs; simpl; split; congruence. Qed.

(** C5: [is_valid] looks at the final dot-separated segment of the name
    only, and accepts the name exactly when the segment passes both the
    exclusion check (excluded is empty or does not hold the segment) and
    the inclusion check (included is empty or holds the segment); with both
    lists empty every name passes, and a segment held by both lists is
    rejected. *)
Theorem is_valid_final_segment (included excluded : list string)
    (name : string) :
  ∃ seg b,
    final_segment name seg
    ∧ Filter.is_valid included excluded (Str name) = Ok b
    ∧ (b = true ↔
         (excluded = [] ∨ seg ∉ excluded) ∧ (included = [] ∨ seg ∈ included))
    ∧ (included = [] → excluded = [] → b = true)
    ∧ (seg ∈ included → seg ∈ excluded → b = false).
Proof.
  exists (last_item (split "." name)).
  eexists. split; [apply last_item_final_segment|].
  split; [reflexivity|].
  set (seg := last_item (split "." name)).
  unfold contains.
  split; [|split].
  - rewrite andb_true_iff.
    destruct excluded as [|e es], included as [|i is']; simpl;
      rewrite ?negb_true_iff, ?bool_decide_eq_true, ?bool_decide_eq_false;
      intuition congruence.
  - intros -> ->. reflexivity.
  - intros Hi He.
    destruct excluded as [|e es]; [inversion He|]. simpl.
    rewrite (bool_decide_eq_true_2 _ He). reflexivity.
Qed.

(** ** Loops that fill a dictionary *)

Section PutAll.
Context {A V : Type} (key : A -> string) (val : A -> V) (keep : A -> bool).

Lemma put_all_snoc xs x d :
  put_all key val keep (xs ++ [x])%list d
  = (if keep x then <[key x := val x]> (put_all key val keep xs d)
     else put_all key val keep xs d).
Proof. unfold put_all. rewrite foldl_app. reflexivity. Qed.

Lemma put_all_lookup_other xs d k :
  (∀ x, x ∈ xs → keep x = true → key x ≠ k) →
  put_all key val keep xs d !! k = d !! k.
Proof.
  revert d. induction xs as [|x xs IH]; intros d Hk; [reflexivity|].
  simpl. change (foldl _ ?e xs) with (put_all key val keep xs e).
  rewrite IH by (intros y Hy; apply Hk; by right).
  destruct (keep x) eqn:Hx; [|reflexivity].
  apply lookup_insert_ne. apply Hk; [by left|exact Hx].
Qed.

Lemma put_all_lookup_kept xs d x :
  NoDup (key <$> xs) → x ∈ xs → keep x = true →
  put_all key val keep xs d !! key x = Some (val x).
Proof.
  revert d. induction xs as [|y xs IH]; intros d Hnd Hin Hx.
  - inversion Hin.
  - rewrite fmap_cons in Hnd. apply NoDup_cons in Hnd as [Hy Hnd].
    simpl. change (foldl _ ?e xs) with (put_all key val keep xs e).
    apply elem_of_cons in Hin as [->|Hin].
    + rewrite put_all_lookup_other.
      * rewrite Hx. apply lookup_insert_eq.
      * intros z Hz _ Heq. apply Hy. rewrite <- Heq.
        apply list_elem_of_fmap. eauto.
    + by apply IH.
Qed.

Lemma put_all_lookup_inv xs d k v :
  put_all key val keep xs d !! k = Some v →
  d !! k = Some v ∨ ∃ x, x ∈ xs ∧ keep x = true ∧ key x = k ∧ v = val x.
Proof.
  revert d. induction xs as [|y xs IH]; intros d H; [by left|].
  simpl in H. change (foldl _ ?e xs) with (put_all key val keep xs e) in H.
  apply IH in H as [H|(x & Hx & Hk & Hkey & Hv)].
  - destruct (keep y) eqn:Hy; [|by left].
    destruct (decide (key y = k)) as [Heq|Hne].
    + rewrite Heq, lookup_insert_eq in H. injection H as <-.
      right. exists y. split; [by left|]. auto.
    + rewrite lookup_insert_ne in H by exact Hne. by left.
  - right. exists x. split; [by right|]. auto.
Qed.

End PutAll.

(** ** The loops of [ClassDefinitionRenderer] *)

Lemma is_valid_Str (included excluded : list string) (s : string) :
  Filter.is_valid included excluded (Str s) = Ok (keeps included excluded s).
Proof. reflexivity. Qed.

Lemma passes_keeps (included excluded : list string) (s : string) :
  passes included excluded s ↔ keeps included excluded s = true.
Proof. unfold passes. rewrite is_valid_Str. split; congruence. Qed.

Lemma render_attributes_put_all (m : Model) (included excluded : list string) :
  ClassDefinitionRenderer.render_attributes m
    (Filter.get_is_valid_validator included excluded)
  = Ok (put_all col_name (λ c, lower (col_type_class c))
          (λ c, keeps included excluded (col_name c)) (table_columns m) ∅).
Proof.
  unfold ClassDefinitionRenderer.render_attributes, put_all,
    Filter.get_is_valid_validator.
  generalize (∅ : gmap string string).
  induction (table_columns m) as [|c cs IH]; intros d; [reflexivity|].
  cbn [for_each]. rewrite is_valid_Str. simpl. destruct (keeps included excluded (col_name c)); simpl; apply IH.
Qed.

Lemma render_relations_put_all (m : Model) (included excluded : list string) :
  (∀ r, r ∈ relationships m → passes included excluded (rel_key r) →
        has_local_column r) →
  ClassDefinitionRenderer.render_relations m
    (Filter.get_is_valid_validator included excluded)
  = Ok (put_all rel_key relation_descriptor
          (λ r, keeps included excluded (rel_key r)) (relationships m) ∅).
Proof.
  unfold ClassDefinitionRenderer.render_relations, put_all,
    Filter.get_is_valid_validator.
  generalize (∅ : gmap string Descriptor).
  induction (relationships m) as [|r rs IH]; intros d Hloc; [reflexivity|].
  cbn [for_each]. rewrite is_valid_Str.
  simpl. destruct (keeps included excluded (rel_key r)) eqn:Hk; simpl.
  - assert (Hr : has_local_column r).
    { apply Hloc; [by left|]. by apply passes_keeps. }
    assert (Hstep :
      (if String.eqb (direction_name (rel_direction r)) "MANYTOONE"
       then local_id ← first (rel_local_columns r);
            Ok (alter (insert "local_column" (PStr local_id)) (rel_key r)
                  (<[rel_key r :=
                       {[ "foreign_model" := PStr (rel_mapper_class r);
                          "relation_type" :=
                            PStr (if String.eqb
                                       (direction_name (rel_direction r))
                                       "ONETOMANY" && negb (rel_uselist r)
                                  then "ONETOONE"
                                  else direction_name (rel_direction r));
                          "backref" := of_option (rel_back_populates r) ]}]>
                     d))
       else Ok (<[rel_key r :=
                    {[ "foreign_model" := PStr (rel_mapper_class r);
                       "relation_type" :=
                         PStr (if String.eqb
                                    (direction_name (rel_direction r))
                                    "ONETOMANY" && negb (rel_uselist r)
                               then "ONETOONE"
                               else direction_name (rel_direction r));
                       "backref" := of_option (rel_back_populates r) ]}]> d))
      = Ok (<[rel_key r := relation_descriptor r]> d)).
    { unfold relation_descriptor, normalized_type, has_local_column in *.
      destruct (rel_direction r); simpl.
      - destruct (rel_uselist r); reflexivity.
      - destruct (rel_local_columns r) as [|c cs]; [by destruct Hr|].
        simpl. rewrite alter_insert_eq. by destruct (rel_uselist r).
      - by destruct (rel_uselist r). }
    rewrite Hstep. simpl. apply IH.
    intros r' Hr'. apply Hloc. by right.
  - apply IH. intros r' Hr'. apply Hloc. by right.
Qed.

Lemma render_hybrid_properties_nil (m : Model) (is_valid : Object → result bool) :
  hybrid_properties m = [] →
  ClassDefinitionRenderer.render_hybrid_properties m is_valid = Ok ∅.
Proof.
  unfold ClassDefinitionRenderer.render_hybrid_properties. by intros ->.
Qed.

Lemma render_hybrid_properties_raises (m : Model)
    (included excluded : list string) :
  hybrid_properties m ≠ [] →
  ClassDefinitionRenderer.render_hybrid_properties m
    (Filter.get_is_valid_validator included excluded)
  = Raise AttributeError.
Proof.
  unfold ClassDefinitionRenderer.render_hybrid_properties.
  destruct (hybrid_properties m) as [|h hs]; [congruence|]. reflexivity.
Qed.

Lemma relation_descriptor_relation_type (r : Relationship) :
  relation_descriptor r !! "relation_type" = Some (PStr (normalized_type r)).
Proof.
  unfold relation_descriptor.
  destruct (rel_direction r), (rel_local_columns r); by simplify_map_eq.
Qed.

Lemma relation_descriptor_backref (r : Relationship) :
  relation_descriptor r !! "backref" = Some (of_option (rel_back_populates r)).
Proof.
  unfold relation_descriptor.
  destruct (rel_direction r), (rel_local_columns r); by simplify_map_eq.
Qed.

Lemma relation_descriptor_is_proxy (r : Relationship) :
  relation_descriptor r !! "is_proxy" = None.
Proof.
  unfold relation_descriptor.
  destruct (rel_direction r), (rel_local_columns r); by simplify_map_eq.
Qed.

Lemma relation_descriptor_local_column (r : Relationship) :
  has_local_column r →
  is_Some (relation_descriptor r !! "local_column")
  ↔ rel_direction r = MANYTOONE.
Proof.
  unfold relation_descriptor, has_local_column. intros Hloc.
  destruct (rel_direction r) eqn:Hd, (rel_local_columns r) eqn:Hl;
    simplify_map_eq; split; intros H;
    try done; try (by destruct H); try (by eexists); by destruct Hloc.
Qed.

Lemma render_relations_lookup (m : Model) (included excluded : list string)
    (rel : Relationship) :
  NoDup (rel_key <$> relationships m) →
  (∀ r, r ∈ relationships m → passes included excluded (rel_key r) →
        has_local_column r) →
  rel ∈ relationships m →
  passes included excluded (rel_key rel) →
  ∃ fk,
    ClassDefinitionRenderer.render_relations m
      (Filter.get_is_valid_validator included excluded) = Ok fk
    ∧ fk !! rel_key rel = Some (relation_descriptor rel).
Proof.
  intros Hnd Hloc Hin Hpass. eexists.
  split; [by apply render_relations_put_all|].
  apply put_all_lookup_kept; [done..|]. by apply passes_keeps.
Qed.

(** C4: a direct relationship that passes the filter is rendered with
    relation type ONETOONE when its direction is ONETOMANY and its remote
    side is scalar, and with the name of its direction otherwise. *)
Theorem render_relations_relation_type (m : Model)
    (included excluded : list string) (rel : Relationship) :
  NoDup (rel_key <$> relationships m) →
  (∀ r, r ∈ relationships m → passes included excluded (rel_key r) →
        has_local_column r) →
  rel ∈ relationships m →
  passes included excluded (rel_key rel) →
  ∃ fk d,
    ClassDefinitionRenderer.render_relations m
      (Filter.get_is_valid_validator included excluded) = Ok fk
    ∧ fk !! rel_key rel = Some d
    ∧ (rel_direction rel = ONETOMANY → rel_uselist rel = false →
       d !! "relation_type" = Some (PStr "ONETOONE"))
    ∧ (¬ (rel_direction rel = ONETOMANY ∧ rel_uselist rel = false) →
       d !! "relation_type" = Some (PStr (direction_name (rel_direction rel)))).
Proof.
  intros Hnd Hloc Hin Hpass.
  destruct (render_relations_lookup m included excluded rel) as (fk & Hfk & Hd);
    [done..|].
  exists fk, (relation_descriptor rel). split; [done|]. split; [done|].
  rewrite relation_descriptor_relation_type. unfold normalized_type.
  split.
  - by intros -> ->.
  - intros Hnot. destruct (rel_direction rel), (rel_uselist rel);
      try reflexivity. destruct Hnot. done.
Qed.

Lemma render_relations_relation_type_witness :
  ∃ fk d,
    ClassDefinitionRenderer.render_relations Sample.Person
      (Filter.get_is_valid_validator [] []) = Ok fk
    ∧ fk !! "passport" = Some d
    ∧ (rel_direction Sample.passport = ONETOMANY →
       rel_uselist Sample.passport = false →
       d !! "relation_type" = Some (PStr "ONETOONE"))
    ∧ (¬ (rel_direction Sample.passport = ONETOMANY
          ∧ rel_uselist Sample.passport = false) →
       d !! "relation_type"
       = Some (PStr (direction_name (rel_direction Sample.passport)))).
Proof.
  apply (render_relations_relation_type Sample.Person [] [] Sample.passport).
  - apply (bool_decide_unpack _). vm_compute. exact I.
  - intros r Hr _ Hd.
    simpl in Hr. set_unfold in Hr.
    destruct Hr as [->|[->|[->|[]]]]; discriminate.
  - apply list_elem_of_In. right. left. reflexivity.
  - reflexivity.
Defined.

(** ** The loop of [compile_method_list] *)

Lemma compile_method_list_put_all (include_internal : bool) (m : Model) :
  MethodDefinitionRenderer.compile_method_list include_internal m
  = put_all fst (λ nf, method_descriptor (snd nf))
      (λ nf, exposed include_internal (fst nf)) (functions m) ∅.
Proof.
  unfold MethodDefinitionRenderer.compile_method_list, put_all.
  generalize (∅ : gmap string Descriptor).
  induction (functions m) as [|[fname params] fs IH]; intros d; [reflexivity|].
  cbn [foldl]. rewrite IH. f_equal. unfold exposed. cbn [fst snd].
  destruct (startswith fname "__"); [reflexivity|].
  destruct (startswith fname "_" && negb include_internal); reflexivity.
Qed.

Lemma classify_argsvar_other (sig : MethodDefinitionRenderer.Signature)
    (params : list Param) :
  (∀ p, p ∈ params → param_kind p ≠ VAR_POSITIONAL) →
  MethodDefinitionRenderer.argsvar
    (foldl MethodDefinitionRenderer.classify sig params)
  = MethodDefinitionRenderer.argsvar sig.
Proof.
  revert sig. induction params as [|p ps IH]; intros sig Hk; [reflexivity|].
  cbn [foldl]. rewrite IH by (intros q Hq; apply Hk; by right).
  unfold MethodDefinitionRenderer.classify.
  destruct (String.eqb (param_name p) "self"); [reflexivity|].
  assert (Hp : param_kind p ≠ VAR_POSITIONAL) by (apply Hk; by left).
  destruct (param_kind p), (param_has_default p); done.
Qed.

Lemma classify_kwargsvar_other (sig : MethodDefinitionRenderer.Signature)
    (params : list Param) :
  (∀ p, p ∈ params → param_kind p ≠ VAR_KEYWORD) →
  MethodDefinitionRenderer.kwargsvar
    (foldl MethodDefinitionRenderer.classify sig params)
  = MethodDefinitionRenderer.kwargsvar sig.
Proof.
  revert sig. induction params as [|p ps IH]; intros sig Hk; [reflexivity|].
  cbn [foldl]. rewrite IH by (intros q Hq; apply Hk; by right).
  unfold MethodDefinitionRenderer.classify.
  destruct (String.eqb (param_name p) "self"); [reflexivity|].
  assert (Hp : param_kind p ≠ VAR_KEYWORD) by (apply Hk; by left).
  destruct (param_kind p), (param_has_default p); done.
Qed.

Lemma method_descriptor_argsvar (params : list Param) :
  method_descriptor params !! "argsvar"
  = Some (of_option (MethodDefinitionRenderer.argsvar (signature_of params))).
Proof. unfold method_descriptor. by simplify_map_eq. Qed.

Lemma method_descriptor_kwargsvar (params : list Param) :
  method_descriptor params !! "kwargsvar"
  = Some (of_option (MethodDefinitionRenderer.kwargsvar (signature_of params))).
Proof. unfold method_descriptor. by simplify_map_eq. Qed.

(** C8, as the code has it: the optional keys whose value the renderer
    always computes are always emitted, with a null value when not
    applicable.  A direct relation descriptor holds [backref] with the name
    of the reciprocal relation, or null when none is declared; it holds
    [local_column] for a many-to-one relationship only and never
    [is_proxy].  An operation descriptor holds [argsvar] and [kwargsvar],
    null when the function declares no such parameter. *)
Theorem optional_keys_emitted (m : Model) (included excluded : list string)
    (rel : Relationship) (include_internal : bool) (fname : string)
    (params : list Param) :
  NoDup (rel_key <$> relationships m) →
  (∀ r, r ∈ relationships m → passes included excluded (rel_key r) →
        has_local_column r) →
  rel ∈ relationships m →
  passes included excluded (rel_key rel) →
  NoDup (fst <$> functions m) →
  (fname, params) ∈ functions m →
  exposed include_internal fname = true →
  (∃ fk d,
     ClassDefinitionRenderer.render_relations m
       (Filter.get_is_valid_validator included excluded) = Ok fk
     ∧ fk !! rel_key rel = Some d
     ∧ d !! "backref" = Some (of_option (rel_back_populates rel))
     ∧ (rel_back_populates rel = None → d !! "backref" = Some PNone)
     ∧ (is_Some (d !! "local_column") ↔ rel_direction rel = MANYTOONE)
     ∧ d !! "is_proxy" = None)
  ∧ (∃ d,
       MethodDefinitionRenderer.compile_method_list include_internal m !! fname
       = Some d
       ∧ is_Some (d !! "argsvar")
       ∧ is_Some (d !! "kwargsvar")
       ∧ ((∀ p, p ∈ params → param_kind p ≠ VAR_POSITIONAL) →
          d !! "argsvar" = Some PNone)
       ∧ ((∀ p, p ∈ params → param_kind p ≠ VAR_KEYWORD) →
          d !! "kwargsvar" = Some PNone)).
Proof.
  intros Hnd Hloc Hin Hpass Hndf Hf Hexp. split.
  - destruct (render_relations_lookup m included excluded rel)
      as (fk & Hfk & Hd); [done..|].
    exists fk, (relation_descriptor rel).
    split; [done|]. split; [done|].
    rewrite relation_descriptor_backref, relation_descriptor_is_proxy.
    split; [done|]. split; [by intros ->|]. split; [|done].
    apply relation_descriptor_local_column. by apply Hloc.
  - exists (method_descriptor params).
    rewrite compile_method_list_put_all.
    split.
    { apply (put_all_lookup_kept fst (λ nf, method_descriptor (snd nf))
               (λ nf, exposed include_internal (fst nf))
               (functions m) ∅ (fname, params)); done. }
    rewrite method_descriptor_argsvar, method_descriptor_kwargsvar.
    split; [by eexists|]. split; [by eexists|].
    unfold signature_of. split; intros Hk.
    + by rewrite classify_argsvar_other.
    + by rewrite classify_kwargsvar_other.
Qed.

Lemma optional_keys_emitted_witness :
  (∃ fk d,
     ClassDefinitionRenderer.render_relations Sample.Person
       (Filter.get_is_valid_validator [] []) = Ok fk
     ∧ fk !! "employer" = Some d
     ∧ d !! "backref" = Some (PStr "staff")
     ∧ (rel_back_populates Sample.employer = None → d !! "backref" = Some PNone)
     ∧ (is_Some (d !! "local_column")
        ↔ rel_direction Sample.employer = MANYTOONE)
     ∧ d !! "is_proxy" = None)
  ∧ (∃ d,
       MethodDefinitionRenderer.compile_method_list false Sample.Person
         !! "greet" = Some d
       ∧ is_Some (d !! "argsvar")
       ∧ is_Some (d !! "kwargsvar")
       ∧ ((∀ p, p ∈ snd (Sample.greet) → param_kind p ≠ VAR_POSITIONAL) →
          d !! "argsvar" = Some PNone)
       ∧ ((∀ p, p ∈ snd (Sample.greet) → param_kind p ≠ VAR_KEYWORD) →
          d !! "kwargsvar" = Some PNone)).
Proof.
  apply (optional_keys_emitted Sample.Person [] [] Sample.employer false
           "greet" (snd Sample.greet)).
  - apply (bool_decide_unpack _). vm_compute. exact I.
  - intros r Hr _ Hd. simpl in Hr. set_unfold in Hr.
    destruct Hr as [->|[->|[->|[]]]]; discriminate.
  - apply list_elem_of_In. right. right. left. reflexivity.
  - reflexivity.
  - apply (bool_decide_unpack _). vm_compute. exact I.
  - apply list_elem_of_In. left. reflexivity.
  - reflexivity.
Defined.

(** C8 as stated fails: a relationship without a reciprocal is rendered
    with a [backref] key (holding null), and a function without variadic
    parameters with [argsvar] and [kwargsvar] keys (holding null). *)
Lemma optional_keys_null_not_omitted :
  rel_back_populates Sample.passport = None
  ∧ (∀ p, p ∈ snd Sample.greet →
          param_kind p ≠ VAR_POSITIONAL ∧ param_kind p ≠ VAR_KEYWORD)
  ∧ ∃ fk d ops op,
      ClassDefinitionRenderer.render_relations Sample.Person
        (Filter.get_is_valid_validator [] []) = Ok fk
      ∧ fk !! "passport" = Some d
      ∧ d !! "backref" = Some PNone
      ∧ MethodDefinitionRenderer.compile_method_list false Sample.Person = ops
      ∧ ops !! "greet" = Some op
      ∧ op !! "argsvar" = Some PNone
      ∧ op !! "kwargsvar" = Some PNone.
Proof.
  split; [reflexivity|]. split.
  - intros p Hp. simpl in Hp. set_unfold in Hp.
    destruct Hp as [->|[->|[->|[]]]]; split; discriminate.
  - eexists _, _, _, _. split; [reflexivity|].
    split; [by vm_compute|]. split; [by vm_compute|].
    split; [reflexivity|].
    split; [by vm_compute|]. split; by vm_compute.
Qed.

(** ** The loops of [render_association_proxies] *)

Lemma odict_set_fresh {V} (d : list (string * V)) (k : string) (v : V) :
  k ∉ fst <$> d → odict_set d k v = (d ++ [(k, v)])%list.
Proof.
  induction d as [|[k' v'] d IH]; intros Hk; [reflexivity|].
  rewrite fmap_cons in Hk. apply not_elem_of_cons in Hk as [Hne Hk].
  cbn [odict_set]. destruct (String.eqb k' k) eqn:Heq.
  - apply String.eqb_eq in Heq. by destruct Hne.
  - rewrite IH by done. reflexivity.
Qed.

Lemma usable_proxies_keys (dict : list (string * DictValue)) (k : string) :
  k ∈ fst <$> usable_proxies dict → k ∈ fst <$> dict.
Proof.
  intros Hk. apply list_elem_of_fmap in Hk as ([k' v] & -> & Hin).
  apply list_elem_of_omap in Hin as ([k0 v0] & Hin & Heq).
  apply list_elem_of_fmap. exists (k0, v0). split; [|done].
  cbn in Heq. destruct v0 as [q|]; [|done].
  destruct (remote_property q); by simplify_eq.
Qed.

Lemma usable_proxies_NoDup (dict : list (string * DictValue)) :
  NoDup (fst <$> dict) → NoDup (fst <$> usable_proxies dict).
Proof.
  induction dict as [|[k v] dict IH]; intros Hnd; [constructor|].
  rewrite fmap_cons in Hnd. apply NoDup_cons in Hnd as [Hk Hnd].
  unfold usable_proxies. cbn [omap list_omap fst snd].
  destruct v as [q|]; [|by apply IH].
  destruct (remote_property q); [|by apply IH].
  rewrite fmap_cons. apply NoDup_cons. split; [|by apply IH].
  intros Hin. apply Hk. by apply usable_proxies_keys.
Qed.

Lemma collect_proxies_usable (m : Model) :
  NoDup (fst <$> class_dict m) →
  ClassDefinitionRenderer.collect_proxies m = usable_proxies (class_dict m).
Proof.
  unfold ClassDefinitionRenderer.collect_proxies.
  enough (H : ∀ dict acc,
             NoDup ((fst <$> acc) ++ (fst <$> dict))%list →
             foldl
               (λ proxies kv,
                  match snd kv with
                  | DProxy v =>
                      match remote_property v with
                      | Some _ => odict_set proxies (fst kv) v
                      | None => proxies
                      end
                  | DOther => proxies
                  end) acc dict
             = (acc ++ usable_proxies dict)%list).
  { intros Hnd. by rewrite (H _ []). }
  induction dict as [|[k v] dict IH]; intros acc Hnd.
  - by rewrite app_nil_r.
  - cbn [foldl fst snd]. unfold usable_proxies. cbn [omap list_omap fst snd].
    assert (Hk : k ∉ fst <$> acc).
    { apply NoDup_app in Hnd as (_ & Hdisj & _). intros Hin.
      apply (Hdisj k Hin). rewrite fmap_cons. by left. }
    assert (Hnd' : ∀ a, NoDup ((fst <$> (acc ++ [(k, a)])) ++ (fst <$> dict))%list).
    { intros a. rewrite fmap_app, <- app_assoc. exact Hnd. }
    assert (Hnd0 : NoDup ((fst <$> acc) ++ (fst <$> dict))%list).
    { rewrite fmap_cons in Hnd. apply NoDup_app in Hnd as (Ha & Hdisj & Hd).
      apply NoDup_cons in Hd as [_ Hd]. apply NoDup_app.
      split; [done|]. split; [|done].
      intros x Hx Hx'. apply (Hdisj x Hx). by right. }
    destruct v as [q|]; [|by apply IH].
    destruct (remote_property q); [|by apply IH].
    rewrite odict_set_fresh by done. rewrite IH by apply Hnd'.
    by rewrite <- app_assoc.
Qed.

Lemma proxies_loop (ps : list (string * AssociationProxy))
    (ad : gmap string string) (fk : gmap string Descriptor) :
  (∀ n q, (n, q) ∈ ps → proxy_renders q) →
  ∃ ad' fk',
    for_each ps
      (λ dicts na,
         let attribute_dict := fst dicts in
         let foreign_keys := snd dicts in
         let name := fst na in
         let attr := snd na in
         match remote_property attr with
         | Some (RelationshipProperty remote_class) =>
             Ok (attribute_dict,
                 <[name :=
                     {[ "foreign_model" := PStr remote_class;
                        "relation_type" :=
                          PStr (if scalar attr then "MANYTOONE"
                                else "ONETOMANY");
                        "is_proxy" := PBool true ]}]> foreign_keys)
         | Some (ColumnProperty columns) =>
             column ← first columns;
             Ok (<[name := lower (col_type_class column)]> attribute_dict,
                 foreign_keys)
         | Some OtherProperty => Ok (attribute_dict, foreign_keys)
         | None => Raise AttributeError
         end)
      (ad, fk) = Ok (ad', fk')
    ∧ (∀ k, k ∉ fst <$> ps → ad' !! k = ad !! k ∧ fk' !! k = fk !! k)
    ∧ (NoDup (fst <$> ps) →
       ∀ n q, (n, q) ∈ ps → proxy_outcome q n ad ad' fk fk').
Proof.
  revert ad fk. induction ps as [|[n q] ps IH]; intros ad fk Hok.
  - exists ad, fk. split; [reflexivity|]. split; [done|].
    intros _ n q Hin. inversion Hin.
  - assert (Hq : proxy_renders q) by (apply (Hok n); by left).
    assert (Hps : ∀ n' q', (n', q') ∈ ps → proxy_renders q').
    { intros n' q' Hin. apply (Hok n'). by right. }
    cbn [for_each fst snd].
    unfold proxy_renders in Hq.
    destruct (remote_property q) as [[cls|[|c cols]|]|] eqn:Hprop;
      try done; simpl.
    + destruct (IH ad (<[n := proxy_descriptor cls (scalar q)]> fk) Hps)
        as (ad' & fk' & Hrun & Hother & Hkept).
      exists ad', fk'. split; [exact Hrun|]. split.
      * intros k Hk. change (k ∉ n :: (fst <$> ps)) in Hk.
        apply not_elem_of_cons in Hk as [Hne Hk].
        destruct (Hother k Hk) as [-> ->].
        split; [done|]. apply lookup_insert_ne. by cbn in Hne.
      * intros Hnd n' q' Hin. change (NoDup (n :: (fst <$> ps))) in Hnd.
        apply NoDup_cons in Hnd as [Hn Hnd].
        apply elem_of_cons in Hin as [Heq|Hin].
        -- injection Heq as -> ->. unfold proxy_outcome. rewrite Hprop.
           destruct (Hother n Hn) as [-> ->].
           split; [apply lookup_insert_eq|done].
        -- assert (Hne : n ≠ n').
           { intros ->. apply Hn. apply list_elem_of_fmap. by exists (n', q'). }
           specialize (Hkept Hnd n' q' Hin). unfold proxy_outcome in *.
           rewrite lookup_insert_ne in Hkept by done. exact Hkept.
    + destruct (IH (<[n := lower (col_type_class c)]> ad) fk Hps)
        as (ad' & fk' & Hrun & Hother & Hkept).
      exists ad', fk'. split; [exact Hrun|]. split.
      * intros k Hk. change (k ∉ n :: (fst <$> ps)) in Hk.
        apply not_elem_of_cons in Hk as [Hne Hk].
        destruct (Hother k Hk) as [-> ->].
        split; [|done]. apply lookup_insert_ne. by cbn in Hne.
      * intros Hnd n' q' Hin. change (NoDup (n :: (fst <$> ps))) in Hnd.
        apply NoDup_cons in Hnd as [Hn Hnd].
        apply elem_of_cons in Hin as [Heq|Hin].
        -- injection Heq as -> ->. unfold proxy_outcome. rewrite Hprop.
           destruct (Hother n Hn) as [-> ->].
           split; [apply lookup_insert_eq|done].
        -- assert (Hne : n ≠ n').
           { intros ->. apply Hn. apply list_elem_of_fmap. by exists (n', q'). }
           specialize (Hkept Hnd n' q' Hin). unfold proxy_outcome in *.
           rewrite lookup_insert_ne in Hkept by done. exact Hkept.
    + destruct (IH ad fk Hps) as (ad' & fk' & Hrun & Hother & Hkept).
      exists ad', fk'. split; [exact Hrun|]. split.
      * intros k Hk. change (k ∉ n :: (fst <$> ps)) in Hk.
        apply not_elem_of_cons in Hk as [Hne Hk]. by apply Hother.
      * intros Hnd n' q' Hin. change (NoDup (n :: (fst <$> ps))) in Hnd.
        apply NoDup_cons in Hnd as [Hn Hnd].
        apply elem_of_cons in Hin as [Heq|Hin].
        -- injection Heq as -> ->. unfold proxy_outcome. rewrite Hprop.
           by apply Hother.
        -- by apply Hkept.
Qed.

Lemma render_association_proxies_outcome (m : Model)
    (ad : gmap string string) (fk : gmap string Descriptor) :
  NoDup (fst <$> class_dict m) →
  (∀ n q, (n, DProxy q) ∈ class_dict m → is_Some (remote_property q) →
          proxy_renders q) →
  ∃ ad' fk',
    ClassDefinitionRenderer.render_association_proxies m ad fk = Ok (ad', fk')
    ∧ (∀ k, k ∉ fst <$> usable_proxies (class_dict m) →
            ad' !! k = ad !! k ∧ fk' !! k = fk !! k)
    ∧ (∀ n q, (n, DProxy q) ∈ class_dict m → is_Some (remote_property q) →
              proxy_outcome q n ad ad' fk fk').
Proof.
  intros Hnd Hok.
  unfold ClassDefinitionRenderer.render_association_proxies.
  rewrite collect_proxies_usable by done.
  assert (Hmem : ∀ n q, (n, q) ∈ usable_proxies (class_dict m) ↔
                        (n, DProxy q) ∈ class_dict m
                        ∧ is_Some (remote_property q)).
  { intros n q. unfold usable_proxies. rewrite list_elem_of_omap. split.
    - intros ([k v] & Hin & Heq). cbn in Heq.
      destruct v as [q'|]; [|done].
      destruct (remote_property q') eqn:Hp; [|done].
      simplify_eq. split; [done|]. rewrite Hp. by eexists.
    - intros [Hin [prop Hp]]. exists (n, DProxy q). split; [done|].
      cbn. by rewrite Hp. }
  destruct (proxies_loop (usable_proxies (class_dict m)) ad fk)
    as (ad' & fk' & Hrun & Hother & Hkept).
  { intros n q Hin. apply Hmem in Hin as [Hin Hsome]. by apply (Hok n). }
  exists ad', fk'. split; [exact Hrun|]. split; [exact Hother|].
  intros n q Hin Hsome. apply Hkept.
  - by apply usable_proxies_NoDup.
  - apply Hmem. done.
Qed.

(** C7: an association proxy with an inspectable remote target is rendered
    by that target.  Over a relationship it becomes a relation descriptor
    with [is_proxy] true, relation type MANYTOONE when the proxy is scalar
    and ONETOMANY otherwise, the remote class as foreign model, and neither
    [backref] nor [local_column]; the attributes are left as they were
    under its name.  Over a column it becomes an attribute whose value is
    the lowercased class name of the column's type; the relations are left
    as they were under its name. *)
Theorem render_association_proxies_classifies (m : Model)
    (ad : gmap string string) (fk : gmap string Descriptor)
    (pname : string) (proxy : AssociationProxy) :
  NoDup (fst <$> class_dict m) →
  (∀ n q, (n, DProxy q) ∈ class_dict m → is_Some (remote_property q) →
          proxy_renders q) →
  (pname, DProxy proxy) ∈ class_dict m →
  ∃ ad' fk',
    ClassDefinitionRenderer.render_association_proxies m ad fk = Ok (ad', fk')
    ∧ (∀ remote_class,
         remote_property proxy = Some (RelationshipProperty remote_class) →
         ∃ d, fk' !! pname = Some d
              ∧ d !! "is_proxy" = Some (PBool true)
              ∧ d !! "relation_type"
                = Some (PStr (if scalar proxy then "MANYTOONE"
                              else "ONETOMANY"))
              ∧ d !! "foreign_model" = Some (PStr remote_class)
              ∧ d !! "backref" = None
              ∧ d !! "local_column" = None
              ∧ ad' !! pname = ad !! pname)
    ∧ (∀ c cols,
         remote_property proxy = Some (ColumnProperty (c :: cols)) →
         ad' !! pname = Some (lower (col_type_class c))
         ∧ fk' !! pname = fk !! pname).
Proof.
  intros Hnd Hok Hin.
  destruct (render_association_proxies_outcome m ad fk Hnd Hok)
    as (ad' & fk' & Hrun & _ & Hkept).
  exists ad', fk'. split; [exact Hrun|]. split.
  - intros cls Hprop.
    assert (Hout := Hkept pname proxy Hin).
    unfold proxy_outcome in Hout. rewrite Hprop in Hout.
    destruct Hout as [Hfk Had]; [by eexists|].
    exists (proxy_descriptor cls (scalar proxy)).
    split; [exact Hfk|]. unfold proxy_descriptor.
    repeat split; by simplify_map_eq.
  - intros c cols Hprop.
    assert (Hout := Hkept pname proxy Hin).
    unfold proxy_outcome in Hout. rewrite Hprop in Hout.
    apply Hout. by eexists.
Qed.

Lemma render_association_proxies_classifies_witness :
  ∃ ad' fk',
    ClassDefinitionRenderer.render_association_proxies Sample.Article ∅ ∅
    = Ok (ad', fk')
    ∧ (∀ remote_class,
         Some (RelationshipProperty "Keyword")
         = Some (RelationshipProperty remote_class) →
         ∃ d, fk' !! "keywords" = Some d
              ∧ d !! "is_proxy" = Some (PBool true)
              ∧ d !! "relation_type" = Some (PStr "ONETOMANY")
              ∧ d !! "foreign_model" = Some (PStr remote_class)
              ∧ d !! "backref" = None
              ∧ d !! "local_column" = None
              ∧ ad' !! "keywords" = (∅ : gmap string string) !! "keywords")
    ∧ (∀ c cols,
         Some (RelationshipProperty "Keyword")
         = Some (ColumnProperty (c :: cols)) →
         ad' !! "keywords" = Some (lower (col_type_class c))
         ∧ fk' !! "keywords" = (∅ : gmap string Descriptor) !! "keywords").
Proof.
  apply (render_association_proxies_classifies Sample.Article ∅ ∅ "keywords"
           {| remote_property := Some (RelationshipProperty "Keyword");
              scalar := false |}).
  - apply (bool_decide_unpack _). vm_compute. exact I.
  - intros n q Hin Hsome. simpl in Hin. set_unfold in Hin.
    destruct Hin as [H|[H|[H|[H|[]]]]]; simplify_eq; try exact I.
    by destruct Hsome.
  - apply list_elem_of_In. right. left. reflexivity.
Defined.

(** C6 fails on the code: [render_hybrid_properties] hands the property
    object, not its name, to [is_valid], whose [column.split] raises
    [AttributeError]; a model with a hybrid property is not rendered at
    all, whatever the filter. *)
Theorem hybrid_property_not_rendered :
  hybrid_properties Sample.Customer = [ {| hp_name := "full_name" |} ]
  ∧ passes [] [] "full_name"
  ∧ ClassDefinitionRenderer.render_hybrid_properties Sample.Customer
      (Filter.get_is_valid_validator [] []) = Raise AttributeError
  ∧ ClassDefinitionRenderer.render Sample.Customer "customers" "api" [] []
    = Raise AttributeError.
Proof. repeat split; reflexivity. Qed.

(** ** [resolve_inheritance] *)

Lemma getitem_Some {V} (d : gmap string V) (k : string) (v : V) :
  d !! k = Some v → getitem d k = Ok v.
Proof. unfold getitem. by intros ->. Qed.

Lemma resolve_inheritance_alter (model : string)
    (inh : DataModelRenderer.Inheritance)
    (dm : gmap string ModelDescriptor) (idef : ModelDescriptor) :
  dm !! DataModelRenderer.inh_parent inh = Some idef →
  is_Some (dm !! model) →
  DataModelRenderer.resolve_inheritance model inh dm
  = Ok (alter (record_child inh model) (DataModelRenderer.inh_parent inh)
          (alter (merge_child idef (DataModelRenderer.inh_parent inh))
             model dm)).
Proof.
  intros Hp [odef Hm]. unfold DataModelRenderer.resolve_inheritance.
  cbv zeta. set (p := DataModelRenderer.inh_parent inh) in *.
  rewrite (getitem_Some dm p idef Hp). cbn [mbind result_bind Py.bind].
  rewrite (getitem_Some dm model odef Hm). cbn [mbind result_bind Py.bind].
  assert (Hrel : ∃ idef1,
             alter (λ odef0,
                      set_attributes odef0
                        (update (attributes odef0) (attributes idef)))
                   model dm !! p = Some idef1
             ∧ relations idef1 = relations idef).
  { destruct (decide (model = p)) as [->|Hne].
    - rewrite lookup_alter_eq, Hp. eexists. split; [reflexivity|]. reflexivity.
    - rewrite lookup_alter_ne by done. by exists idef. }
  destruct Hrel as (idef1 & Hlook & Hrel).
  rewrite (getitem_Some _ p idef1 Hlook). cbn [mbind result_bind Py.bind].
  rewrite Hrel. f_equal.
  rewrite !alter_alter_eq. reflexivity.
Qed.

Lemma resolve_inheritance_child (model : string)
    (inh : DataModelRenderer.Inheritance)
    (dm : gmap string ModelDescriptor) (idef odef : ModelDescriptor) :
  dm !! DataModelRenderer.inh_parent inh = Some idef →
  dm !! model = Some odef →
  ∃ dm' odef',
    DataModelRenderer.resolve_inheritance model inh dm = Ok dm'
    ∧ dm' !! model = Some odef'
    ∧ attributes odef' = attributes idef ∪ attributes odef
    ∧ relations odef' = relations idef ∪ relations odef.
Proof.
  intros Hp Hm.
  rewrite (resolve_inheritance_alter model inh dm idef) by eauto.
  set (p := DataModelRenderer.inh_parent inh) in *.
  destruct (decide (p = model)) as [Heq|Hne].
  - exists (alter (record_child inh model) p
              (alter (merge_child idef p) model dm)),
      (record_child inh model (merge_child idef p odef)).
    split; [reflexivity|]. split; [|done].
    by rewrite Heq, !lookup_alter_eq, Hm.
  - exists (alter (record_child inh model) p
              (alter (merge_child idef p) model dm)),
      (merge_child idef p odef).
    split; [reflexivity|]. split; [|done].
    by rewrite lookup_alter_ne, lookup_alter_eq, Hm.
Qed.

(** C1, as the code has it: [resolve_inheritance] writes every entry of the
    parent's attributes and relations into the child's, so a key both
    define ends with the parent's value; the child keeps its own entries
    under the keys the parent does not define. *)
Theorem resolve_inheritance_parent_wins (model : string)
    (inh : DataModelRenderer.Inheritance)
    (dm : gmap string ModelDescriptor) (idef odef : ModelDescriptor) :
  dm !! DataModelRenderer.inh_parent inh = Some idef →
  dm !! model = Some odef →
  ∃ dm' odef',
    DataModelRenderer.resolve_inheritance model inh dm = Ok dm'
    ∧ dm' !! model = Some odef'
    ∧ (∀ k v, attributes idef !! k = Some v → attributes odef' !! k = Some v)
    ∧ (∀ k, attributes idef !! k = None →
            attributes odef' !! k = attributes odef !! k)
    ∧ (∀ k v, relations idef !! k = Some v → relations odef' !! k = Some v)
    ∧ (∀ k, relations idef !! k = None →
            relations odef' !! k = relations odef !! k).
Proof.
  intros Hp Hm.
  destruct (resolve_inheritance_child model inh dm idef odef Hp Hm)
    as (dm' & odef' & Hrun & Hlook & Ha & Hr).
  exists dm', odef'. split; [exact Hrun|]. split; [exact Hlook|].
  rewrite Ha, Hr. repeat split.
  - intros k v Hk. by apply lookup_union_Some_l.
  - intros k Hk. by apply lookup_union_r.
  - intros k v Hk. by apply lookup_union_Some_l.
  - intros k Hk. by apply lookup_union_r.
Qed.

Lemma resolve_inheritance_Ok_inv (model : string)
    (inh : DataModelRenderer.Inheritance)
    (dm dm' : gmap string ModelDescriptor) :
  DataModelRenderer.resolve_inheritance model inh dm = Ok dm' →
  ∃ idef odef,
    dm !! DataModelRenderer.inh_parent inh = Some idef
    ∧ dm !! model = Some odef.
Proof.
  intros Hrun. unfold DataModelRenderer.resolve_inheritance in Hrun.
  cbv zeta in Hrun.
  destruct (dm !! DataModelRenderer.inh_parent inh) as [idef|] eqn:Hp.
  - destruct (dm !! model) as [odef|] eqn:Hm; [by exists idef, odef|].
    rewrite (getitem_Some _ _ _ Hp) in Hrun.
    cbn [mbind result_bind Py.bind] in Hrun.
    unfold getitem in Hrun. rewrite Hm in Hrun. by cbn in Hrun.
  - unfold getitem in Hrun. rewrite Hp in Hrun. by cbn in Hrun.
Qed.

Lemma resolve_inheritance_entry (model : string)
    (inh : DataModelRenderer.Inheritance)
    (dm dm' : gmap string ModelDescriptor) :
  DataModelRenderer.resolve_inheritance model inh dm = Ok dm' →
  ∃ idef,
    dm !! DataModelRenderer.inh_parent inh = Some idef
    ∧ is_Some (dm !! model)
    ∧ ∀ n, dm' !! n = entry_after inh model idef n <$> dm !! n.
Proof.
  intros Hrun.
  destruct (resolve_inheritance_Ok_inv _ _ _ _ Hrun) as (idef & odef & Hp & Hm).
  exists idef. split; [exact Hp|]. split; [by eexists|].
  rewrite (resolve_inheritance_alter model inh dm idef) in Hrun by eauto.
  injection Hrun as <-. intros n. unfold entry_after.
  remember (DataModelRenderer.inh_parent inh) as p eqn:Ep. clear Ep.
  destruct (decide (n = model)) as [Hnm|Hnm];
    destruct (decide (n = p)) as [Hnp|Hnp]; subst.
  - by rewrite !lookup_alter_eq, Hm.
  - rewrite lookup_alter_ne by done. by rewrite lookup_alter_eq.
  - rewrite lookup_alter_eq. by rewrite lookup_alter_ne.
  - rewrite !lookup_alter_ne by done. by destruct (dm !! n).
Qed.

Lemma entry_after_attributes inh model idef n d :
  attributes (entry_after inh model idef n d)
  = (if decide (n = model) then attributes idef ∪ attributes d
     else attributes d).
Proof. unfold entry_after. by repeat case_decide. Qed.

Lemma entry_after_relations inh model idef n d :
  relations (entry_after inh model idef n d)
  = (if decide (n = model) then relations idef ∪ relations d
     else relations d).
Proof. unfold entry_after. by repeat case_decide. Qed.

Lemma entry_after_parent_of inh model idef n d :
  parent_of (entry_after inh model idef n d)
  = (if decide (n = model) then Some (DataModelRenderer.inh_parent inh)
     else parent_of d).
Proof.
  unfold entry_after, parent_of. repeat case_decide; try done.
  cbn. by destruct (polymorphic d).
Qed.

Lemma entry_after_polymorphic_other inh model idef n d :
  n ≠ model → n ≠ DataModelRenderer.inh_parent inh →
  polymorphic (entry_after inh model idef n d) = polymorphic d.
Proof. intros. unfold entry_after. by rewrite !decide_False. Qed.

(** ** Invariants of loops *)

Lemma for_each_invariant {A S} (P : S → Prop) (xs : list A)
    (body : S → A → result S) (s s' : S) :
  (∀ s0 x s1, x ∈ xs → P s0 → body s0 x = Ok s1 → P s1) →
  P s → for_each xs body s = Ok s' → P s'.
Proof.
  revert s. induction xs as [|x xs IH]; intros s Hstep Hs Hrun.
  - by injection Hrun as <-.
  - cbn [for_each] in Hrun. destruct (body s x) as [s1|e] eqn:Hb;
      [|discriminate].
    cbn in Hrun. apply (IH s1).
    + intros s0 y s2 Hy. apply Hstep. by right.
    + apply (Hstep s x); [by left|done..].
    + exact Hrun.
Qed.

Lemma for_each_establish {A S} (P Q : S → Prop) (xs : list A)
    (body : S → A → result S) (x : A) (s s' : S) :
  (∀ s0 y s1, y ∈ xs → P s0 → body s0 y = Ok s1 → P s1) →
  (∀ s0 s1, P s0 → body s0 x = Ok s1 → Q s1) →
  (∀ s0 y s1, y ∈ xs → P s0 → Q s0 → body s0 y = Ok s1 → Q s1) →
  x ∈ xs → P s → for_each xs body s = Ok s' → Q s'.
Proof.
  intros HP Hest HQ. revert s.
  induction xs as [|y xs IH]; intros s Hin Hs Hrun; [inversion Hin|].
  cbn [for_each] in Hrun. destruct (body s y) as [s1|e] eqn:Hb;
    [|discriminate].
  cbn [Py.bind] in Hrun.
  assert (Hs1 : P s1) by (apply (HP s y); [by left|done..]).
  apply elem_of_cons in Hin as [<-|Hin].
  - assert (Hq1 : Q s1) by by apply (Hest s).
    enough (H : P s' ∧ Q s') by apply H.
    apply (for_each_invariant (λ s0, P s0 ∧ Q s0) xs body s1);
      [|done|done].
    intros s0 z s2 Hz [Hp Hq] Hstep. split.
    + apply (HP s0 z); [by right|done..].
    + apply (HQ s0 z); [by right|done..].
  - apply (IH (λ s0 z s2 Hz, HP s0 z s2 (list_elem_of_further _ _ _ Hz))
              (λ s0 z s2 Hz, HQ s0 z s2 (list_elem_of_further _ _ _ Hz))
              s1 Hin Hs1 Hrun).
Qed.

(** ** Inheritance on the sample hierarchy *)

Lemma resolve_inheritance_parent_wins_witness :
  ∃ dm' odef',
    DataModelRenderer.resolve_inheritance "Mammal" Sample.Mammal_inheritance
      Sample.zoo = Ok dm'
    ∧ dm' !! "Mammal" = Some odef'
    ∧ (∀ k v, attributes Sample.Animal_def !! k = Some v →
              attributes odef' !! k = Some v)
    ∧ (∀ k, attributes Sample.Animal_def !! k = None →
            attributes odef' !! k = attributes Sample.Mammal_def !! k)
    ∧ (∀ k v, relations Sample.Animal_def !! k = Some v →
              relations odef' !! k = Some v)
    ∧ (∀ k, relations Sample.Animal_def !! k = None →
            relations odef' !! k = relations Sample.Mammal_def !! k).
Proof.
  apply (resolve_inheritance_parent_wins "Mammal" Sample.Mammal_inheritance
           Sample.zoo Sample.Animal_def Sample.Mammal_def).
  - vm_compute. reflexivity.
  - vm_compute. reflexivity.
Defined.

(** C1 as stated fails: Mammal renders its own [id] as a big integer,
    Animal renders [id] as an integer, and after composition Mammal's [id]
    holds the value of Animal. *)
Lemma child_attribute_overwritten :
  own_attribute Sample.Mammal (Sample.conf "mammals") "id"
  = Some "biginteger"
  ∧ own_attribute Sample.Animal (Sample.conf "animals") "id"
    = Some "integer"
  ∧ attribute_in
      (DataModelRenderer.render Sample.db
         [ (Sample.Animal, Sample.conf "animals");
           (Sample.Mammal, Sample.conf "mammals") ]
         Sample.zoo_methods)
      "Mammal" "id"
    = Some "integer".
Proof. repeat split; vm_compute; reflexivity. Qed.

(** C2 fails on the code: with the models given as Cat, Mammal, Animal the
    single pass of [render] merges Mammal into Cat before Animal has been
    merged into Mammal.  Animal's [name] reaches Mammal and never reaches
    Cat; given as Animal, Mammal, Cat the same models do pass it on. *)
Theorem grandparent_attribute_missing :
  own_attribute Sample.Animal (Sample.conf "animals") "name" = Some "unicode"
  ∧ attribute_in
      (DataModelRenderer.render Sample.db
         [ (Sample.Cat, Sample.conf "cats");
           (Sample.Mammal, Sample.conf "mammals");
           (Sample.Animal, Sample.conf "animals") ]
         Sample.zoo_methods)
      "Mammal" "name"
    = Some "unicode"
  ∧ attribute_in
      (DataModelRenderer.render Sample.db
         [ (Sample.Cat, Sample.conf "cats");
           (Sample.Mammal, Sample.conf "mammals");
           (Sample.Animal, Sample.conf "animals") ]
         Sample.zoo_methods)
      "Cat" "name"
    = None
  ∧ attribute_in
      (DataModelRenderer.render Sample.db
         [ (Sample.Animal, Sample.conf "animals");
           (Sample.Mammal, Sample.conf "mammals");
           (Sample.Cat, Sample.conf "cats") ]
         Sample.zoo_methods)
      "Cat" "name"
    = Some "unicode".
Proof. repeat split; vm_compute; reflexivity. Qed.

(** A child whose parent declares no discriminator of its own, as the
    middle class of a chain usually does, stops the composition:
    [parent.__mapper_args__['polymorphic_on']] raises [KeyError]. *)
Lemma flag_inheritance_models_no_discriminator (db : DB) (m : Model)
    (args pargs : MapperArgs) (i : string) (p : Class) :
  mapper_args m = Some args →
  polymorphic_identity args = Some i →
  DataModelRenderer.find_parent db m = Some p →
  cls_mapper_args p = Some pargs →
  polymorphic_on pargs = None →
  DataModelRenderer.flag_inheritance_models db m = Raise KeyError.
Proof.
  intros Ha Hi Hp Hpa Hon. unfold DataModelRenderer.flag_inheritance_models.
  rewrite Ha. destruct args as [ai ao]. cbn in Hi. subst ai.
  rewrite Hp, Hpa. cbn [mbind result_bind Py.bind]. by rewrite Hon.
Qed.

(** ** The keys a class definition can hold *)

Lemma odict_set_elem {V} (d : list (string * V)) (k : string) (v : V)
    (kv : string * V) :
  kv ∈ odict_set d k v → kv ∈ d ∨ kv = (k, v).
Proof.
  induction d as [|[k' v'] d IH]; cbn [odict_set].
  - intros H. apply list_elem_of_singleton in H. by right.
  - destruct (String.eqb k' k).
    + intros H. apply elem_of_cons in H as [->|H]; [by right|].
      left. by right.
    + intros H. apply elem_of_cons in H as [->|H]; [left; by left|].
      destruct (IH H) as [H'|H']; [left; by right|by right].
Qed.

Lemma collect_proxies_elem (m : Model) (k : string) (q : AssociationProxy) :
  (k, q) ∈ ClassDefinitionRenderer.collect_proxies m →
  (k, DProxy q) ∈ class_dict m.
Proof.
  unfold ClassDefinitionRenderer.collect_proxies.
  enough (H : ∀ dict acc,
             (k, q) ∈ foldl
               (λ proxies kv,
                  match snd kv with
                  | DProxy v =>
                      match remote_property v with
                      | Some _ => odict_set proxies (fst kv) v
                      | None => proxies
                      end
                  | DOther => proxies
                  end) acc dict →
             (k, q) ∈ acc ∨ (k, DProxy q) ∈ dict).
  { intros Hin. destruct (H _ _ Hin) as [Hnil|Hd]; [inversion Hnil|done]. }
  induction dict as [|[k' v'] dict IH]; intros acc Hin; [by left|].
  cbn [foldl fst snd] in Hin. apply IH in Hin as [Hin|Hin]; [|right; by right].
  destruct v' as [v|]; [|by left].
  destruct (remote_property v); [|by left].
  apply odict_set_elem in Hin as [Hin|Heq]; [by left|].
  injection Heq as -> ->. right. by left.
Qed.

Lemma column_proxy_name (m : Model) (k : string) (q : AssociationProxy)
    (cols : list Column) :
  (k, DProxy q) ∈ class_dict m →
  remote_property q = Some (ColumnProperty cols) →
  k ∈ scalar_names m.
Proof.
  intros Hin Hq. unfold scalar_names. rewrite !elem_of_app. right. right.
  apply list_elem_of_omap. exists (k, DProxy q). split; [done|].
  cbn. by rewrite Hq.
Qed.

Lemma relation_proxy_name (m : Model) (k : string) (q : AssociationProxy)
    (cls : string) :
  (k, DProxy q) ∈ class_dict m →
  remote_property q = Some (RelationshipProperty cls) →
  k ∈ relational_names m.
Proof.
  intros Hin Hq. unfold relational_names. rewrite !elem_of_app. right.
  apply list_elem_of_omap. exists (k, DProxy q). split; [done|].
  cbn. by rewrite Hq.
Qed.

Lemma render_relations_keys (m : Model) (is_valid : Object → result bool)
    (fk : gmap string Descriptor) :
  ClassDefinitionRenderer.render_relations m is_valid = Ok fk →
  ∀ k, is_Some (fk !! k) → k ∈ rel_key <$> relationships m.
Proof.
  unfold ClassDefinitionRenderer.render_relations.
  apply (for_each_invariant
           (λ fk, ∀ k, is_Some (fk !! k) → k ∈ rel_key <$> relationships m)).
  - intros fk0 r fk1 Hr Hinv Hbody k Hk.
    assert (Hkey : rel_key r ∈ rel_key <$> relationships m).
    { apply list_elem_of_fmap. by exists r. }
    destruct (is_valid (Str (rel_key r))) as [[|]|e]; cbn in Hbody;
      [|injection Hbody as <-; by apply Hinv|discriminate].
    destruct (String.eqb (direction_name (rel_direction r)) "MANYTOONE").
    + destruct (first (rel_local_columns r)) as [c|e]; cbn in Hbody;
        [|discriminate].
      injection Hbody as <-.
      apply lookup_alter_is_Some in Hk.
      apply lookup_insert_is_Some in Hk as [<-|[_ Hk]]; [done|by apply Hinv].
    + injection Hbody as <-.
      apply lookup_insert_is_Some in Hk as [<-|[_ Hk]]; [done|by apply Hinv].
  - intros k Hk. rewrite lookup_empty in Hk. by destruct Hk.
Qed.

Lemma render_hybrid_properties_Ok (m : Model)
    (included excluded : list string) (h : gmap string string) :
  ClassDefinitionRenderer.render_hybrid_properties m
    (Filter.get_is_valid_validator included excluded) = Ok h →
  h = ∅.
Proof.
  unfold ClassDefinitionRenderer.render_hybrid_properties.
  destruct (hybrid_properties m); cbn; [|discriminate]. by intros [= <-].
Qed.

Lemma render_association_proxies_keys (m : Model)
    (ad ad' : gmap string string) (fk fk' : gmap string Descriptor) :
  ClassDefinitionRenderer.render_association_proxies m ad fk = Ok (ad', fk') →
  (∀ k, is_Some (ad' !! k) → is_Some (ad !! k) ∨ k ∈ scalar_names m)
  ∧ (∀ k, is_Some (fk' !! k) → is_Some (fk !! k) ∨ k ∈ relational_names m).
Proof.
  unfold ClassDefinitionRenderer.render_association_proxies. intros Hrun.
  apply (for_each_invariant
           (λ dicts,
              (∀ k, is_Some (fst dicts !! k) →
                    is_Some (ad !! k) ∨ k ∈ scalar_names m)
              ∧ (∀ k, is_Some (snd dicts !! k) →
                      is_Some (fk !! k) ∨ k ∈ relational_names m))
           _ _ _ (ad', fk')) in Hrun; [exact Hrun| |].
  - intros [ad0 fk0] [k q] [ad1 fk1] Hin [Ha Hf] Hbody.
    apply collect_proxies_elem in Hin. cbn [fst snd] in *.
    destruct (remote_property q) as [[cls|cols|]|] eqn:Hq.
    + injection Hbody as <- <-. split; [done|].
      intros k' Hk'. apply lookup_insert_is_Some in Hk' as [<-|[_ Hk']].
      * right. by eapply relation_proxy_name.
      * by apply Hf.
    + destruct (first cols) as [c|e]; cbn in Hbody; [|discriminate].
      injection Hbody as <- <-. split; [|done].
      intros k' Hk'. apply lookup_insert_is_Some in Hk' as [<-|[_ Hk']].
      * right. by eapply column_proxy_name.
      * by apply Ha.
    + by injection Hbody as <- <-.
    + discriminate.
  - split; intros k Hk; by left.
Qed.

Lemma render_definition_keys (m : Model) (cn bp : string)
    (included excluded : list string) (d : ModelDescriptor) :
  ClassDefinitionRenderer.render m cn bp included excluded = Ok d →
  (∀ k, is_Some (attributes d !! k) → k ∈ scalar_names m)
  ∧ (∀ k, is_Some (relations d !! k) → k ∈ relational_names m)
  ∧ polymorphic d = None.
Proof.
  unfold ClassDefinitionRenderer.render. cbv zeta.
  rewrite render_attributes_put_all. cbn [mbind result_bind Py.bind].
  destruct (ClassDefinitionRenderer.render_relations m _) as [fk|e] eqn:Hfk;
    [|discriminate].
  cbn [mbind result_bind Py.bind].
  destruct (ClassDefinitionRenderer.render_hybrid_properties m _)
    as [h|e] eqn:Hh; [|discriminate].
  apply render_hybrid_properties_Ok in Hh as ->.
  cbn [mbind result_bind Py.bind].
  destruct (ClassDefinitionRenderer.render_association_proxies m _ fk)
    as [[ad' fk']|e] eqn:Hp; [|discriminate].
  cbn [mbind result_bind Py.bind]. intros [= <-]. cbn [attributes relations].
  apply render_association_proxies_keys in Hp as [Ha Hf].
  split; [|split; [|reflexivity]].
  - intros k Hk. destruct (Ha k Hk) as [[v Hv]|Hs]; [|exact Hs].
    unfold update in Hv. rewrite (left_id_L ∅ (∪)) in Hv.
    apply put_all_lookup_inv in Hv as [Hv|(c & Hc & _ & <- & _)].
    + by rewrite lookup_empty in Hv.
    + unfold scalar_names. rewrite elem_of_app. left.
      apply list_elem_of_fmap. by exists c.
  - intros k Hk. destruct (Hf k Hk) as [Hk'|Hs]; [|exact Hs].
    unfold relational_names. rewrite elem_of_app. left.
    by eapply render_relations_keys.
Qed.

(** ** The two loops of [DataModelRenderer.render] *)

Lemma render_model_inv (db : DB)
    (meths : gmap string (gmap string Descriptor))
    (dm dm' : gmap string ModelDescriptor)
    (fl fl' : list (string * DataModelRenderer.Inheritance))
    (m : Model) (kw : Conf) :
  DataModelRenderer.render_model db meths (dm, fl) (m, kw) = Ok (dm', fl') →
  ∃ own ops info,
    ClassDefinitionRenderer.render m
      (conf_collection_name kw) (conf_bp_name kw)
      (conf_included kw) (conf_excluded kw) = Ok own
    ∧ meths !! name m = Some ops
    ∧ DataModelRenderer.flag_inheritance_models db m = Ok info
    ∧ dm' = <[name m := set_methods own ops]> dm
    ∧ fl' = match info with
            | Some i => odict_set fl (name m) i
            | None => fl
            end.
Proof.
  unfold DataModelRenderer.render_model. cbv zeta. cbn [fst snd].
  destruct (ClassDefinitionRenderer.render m _ _ _ _) as [own|e];
    [|discriminate].
  cbn [mbind result_bind Py.bind]. unfold getitem.
  destruct (meths !! name m) as [ops|]; [|discriminate].
  cbn [mbind result_bind Py.bind].
  destruct (DataModelRenderer.flag_inheritance_models db m) as [info|e];
    [|discriminate].
  cbn [mbind result_bind Py.bind]. intros [= <- <-].
  by exists own, ops, info.
Qed.

Lemma render_inv (db : DB) (models : list (Model * Conf))
    (meths : gmap string (gmap string Descriptor))
    (dm : gmap string ModelDescriptor) :
  DataModelRenderer.render db models meths = Ok dm →
  ∃ dm0 fl,
    for_each models (DataModelRenderer.render_model db meths) (∅, [])
    = Ok (dm0, fl)
    ∧ for_each fl
        (λ data_model flagged,
           DataModelRenderer.resolve_inheritance (fst flagged) (snd flagged)
             data_model) dm0 = Ok dm.
Proof.
  unfold DataModelRenderer.render.
  destruct (for_each models _ _) as [[dm0 fl]|e]; [|discriminate].
  cbn [mbind result_bind Py.bind fst snd]. intros H. by exists dm0, fl.
Qed.

Lemma first_loop_entries (db : DB) (models : list (Model * Conf))
    (meths : gmap string (gmap string Descriptor))
    (dm0 : gmap string ModelDescriptor)
    (fl : list (string * DataModelRenderer.Inheritance)) :
  for_each models (DataModelRenderer.render_model db meths) (∅, [])
  = Ok (dm0, fl) →
  (∀ n d, dm0 !! n = Some d →
     ∃ m kw own,
       (m, kw) ∈ models ∧ name m = n
       ∧ ClassDefinitionRenderer.render m
           (conf_collection_name kw) (conf_bp_name kw)
           (conf_included kw) (conf_excluded kw) = Ok own
       ∧ attributes d = attributes own
       ∧ relations d = relations own
       ∧ polymorphic d = None)
  ∧ (∀ n inh, (n, inh) ∈ fl →
       ∃ m kw,
         (m, kw) ∈ models ∧ name m = n
         ∧ DataModelRenderer.flag_inheritance_models db m = Ok (Some inh)).
Proof.
  intros Hrun.
  apply (for_each_invariant
           (λ st,
              (∀ n d, fst st !! n = Some d →
                 ∃ m kw own,
                   (m, kw) ∈ models ∧ name m = n
                   ∧ ClassDefinitionRenderer.render m
                       (conf_collection_name kw) (conf_bp_name kw)
                       (conf_included kw) (conf_excluded kw) = Ok own
                   ∧ attributes d = attributes own
                   ∧ relations d = relations own
                   ∧ polymorphic d = None)
              ∧ (∀ n inh, (n, inh) ∈ snd st →
                   ∃ m kw,
                     (m, kw) ∈ models ∧ name m = n
                     ∧ DataModelRenderer.flag_inheritance_models db m
                       = Ok (Some inh)))) in Hrun; [exact Hrun| |].
  - intros [dm1 fl1] [m kw] [dm2 fl2] Hin [Hd Hf] Hstep.
    apply render_model_inv in Hstep
      as (own & ops & info & Hown & _ & Hflag & -> & ->).
    cbn [fst snd] in *. split.
    + intros n d Hlook. destruct (decide (name m = n)) as [<-|Hne].
      * rewrite lookup_insert_eq in Hlook. injection Hlook as <-.
        exists m, kw, own. repeat split; try done.
        apply (render_definition_keys _ _ _ _ _ _ Hown).
      * rewrite lookup_insert_ne in Hlook by done. by apply Hd.
    + intros n inh Hn. destruct info as [i|]; [|by apply Hf].
      apply odict_set_elem in Hn as [Hn|Heq]; [by apply Hf|].
      injection Heq as -> ->. by exists m, kw.
  - cbn [fst snd]. split.
    + intros n d Hd. by rewrite lookup_empty in Hd.
    + intros n inh Hn. inversion Hn.
Qed.




(** On [company] the unrelated Badge has a column named like a
    relationship of Staff, which Manager inherits. *)
Example company_unrelated_clash :
  attribute_in
    (DataModelRenderer.render Sample.db Sample.company Sample.company_methods)
    "Badge" "employer"
  = Some "string"
  ∧ (relation_in
       (DataModelRenderer.render Sample.db Sample.company
          Sample.company_methods)
       "Manager" "employer"
     ≫= (.!! "relation_type"))
    = Some (PStr "MANYTOONE").
Proof. split; vm_compute; reflexivity. Qed.



(** ** Models without a parent *)

Lemma flag_inheritance_models_no_parent (db : DB) (m : Model) :
  DataModelRenderer.find_parent db m = None →
  DataModelRenderer.flag_inheritance_models db m = Ok None.
Proof.
  intros Hp. unfold DataModelRenderer.flag_inheritance_models.
  destruct (mapper_args m) as [[[i|] o]|]; [|reflexivity..].
  by rewrite Hp.
Qed.

Lemma first_loop_dom (db : DB) (models : list (Model * Conf))
    (meths : gmap string (gmap string Descriptor))
    (st st' : gmap string ModelDescriptor
              * list (string * DataModelRenderer.Inheritance)) :
  for_each models (DataModelRenderer.render_model db meths) st = Ok st' →
  (∀ n, is_Some (fst st !! n) → is_Some (fst st' !! n))
  ∧ (∀ m kw, (m, kw) ∈ models → is_Some (fst st' !! name m)).
Proof.
  revert st. induction models as [|[m kw] models IH]; intros st Hrun.
  - injection Hrun as <-. split; [done|]. intros m kw Hin. inversion Hin.
  - cbn [for_each] in Hrun.
    destruct (DataModelRenderer.render_model db meths st (m, kw))
      as [[dm1 fl1]|e] eqn:Hstep; [|discriminate].
    cbn in Hrun. destruct st as [dm fl].
    apply render_model_inv in Hstep as (own & ops & info & _ & _ & _ & -> & _).
    destruct (IH _ Hrun) as [Hkeep Hnew]. cbn [fst] in *. split.
    + intros n Hn. apply Hkeep. apply lookup_insert_is_Some.
      destruct (decide (name m = n)); [by left|by right].
    + intros m' kw' Hin. apply elem_of_cons in Hin as [Heq|Hin].
      * injection Heq as -> ->. apply Hkeep. rewrite lookup_insert_eq.
        by eexists.
      * by apply (Hnew m' kw').
Qed.

Lemma odict_set_in {V} (d : list (string * V)) (k : string) (v : V) :
  (k, v) ∈ odict_set d k v.
Proof.
  induction d as [|[k' v'] d IH]; cbn [odict_set]; [by left|].
  destruct (String.eqb k' k); [by left|by right].
Qed.

Lemma odict_set_other {V} (d : list (string * V)) (k : string) (v : V)
    (n : string) (i : V) :
  n ≠ k → (n, i) ∈ d → (n, i) ∈ odict_set d k v.
Proof.
  intros Hne. induction d as [|[k' v'] d IH]; cbn [odict_set];
    [intros H; inversion H|].
  intros Hin. destruct (String.eqb k' k) eqn:Heq.
  - apply String.eqb_eq in Heq. subst k'.
    apply elem_of_cons in Hin as [[= -> ->]|Hin]; [done|by right].
  - apply elem_of_cons in Hin as [->|Hin]; [by left|]. right. by apply IH.
Qed.

Lemma first_loop_flagged_all (db : DB) (models : list (Model * Conf))
    (meths : gmap string (gmap string Descriptor))
    (st st' : gmap string ModelDescriptor
              * list (string * DataModelRenderer.Inheritance))
    (n : string) (inh : DataModelRenderer.Inheritance) :
  for_each models (DataModelRenderer.render_model db meths) st = Ok st' →
  (∀ m kw, (m, kw) ∈ models → name m = n →
           DataModelRenderer.flag_inheritance_models db m = Ok (Some inh)) →
  (n, inh) ∈ snd st ∨ (∃ m kw, (m, kw) ∈ models ∧ name m = n) →
  (n, inh) ∈ snd st'.
Proof.
  revert st. induction models as [|[m0 kw0] models IH]; intros st Hrun Hall Hn.
  - injection Hrun as <-. destruct Hn as [Hn|(m & kw & Hin & _)]; [done|].
    inversion Hin.
  - cbn [for_each] in Hrun.
    destruct (DataModelRenderer.render_model db meths st (m0, kw0))
      as [[dm1 fl1]|e] eqn:Hstep; [|discriminate].
    cbn [Py.bind] in Hrun. destruct st as [dm fl].
    apply render_model_inv in Hstep
      as (own & ops & info & _ & _ & Hflag & -> & ->).
    apply (IH _ Hrun).
    + intros m kw Hin. apply (Hall m kw). by right.
    + cbn [snd] in *. destruct (decide (name m0 = n)) as [Heq|Hne].
      * left. rewrite (Hall m0 kw0 (ltac:(by left)) Heq) in Hflag.
        injection Hflag as <-. rewrite Heq. apply odict_set_in.
      * destruct Hn as [Hn|(m & kw & Hin & Hname)].
        -- left. destruct info as [i|]; [|done].
           apply odict_set_other; [|done]. intros Heq. by apply Hne.
        -- apply elem_of_cons in Hin as [[= -> ->]|Hin]; [done|].
           right. by exists m, kw.
Qed.

(** C10, as the code has it: a model for which the loop over its bases
    finds no model class other than [db.Model] is not flagged, whether it
    declares an identity or not.  When the schema is composed, its entry
    holds the attributes and relations of its own rendering and names no
    parent.  It carries a [polymorphic] entry exactly as the parent of
    flagged models.  With no flagged model naming it, it carries none.
    An entry it carries names no parent, its [on] is the discriminator
    reported for a flagged model that names it, and each of its
    identities is the identity of a flagged model that names it, linked
    to the name of that model.  Conversely every flagged model that names
    it, and is the only model of its name, has its identity among the
    identities of the entry, which then has an [on]; the identity is
    linked to the name of that model when no other flagged child of the
    same parent reports the same identity. *)
Theorem no_parent_not_flagged (db : DB) (models : list (Model * Conf))
    (meths : gmap string (gmap string Descriptor))
    (dm : gmap string ModelDescriptor) (m : Model) (kw : Conf) :
  DataModelRenderer.find_parent db m = None →
  (m, kw) ∈ models →
  (∀ m' kw', (m', kw') ∈ models → name m' = name m → m' = m ∧ kw' = kw) →
  DataModelRenderer.render db models meths = Ok dm →
  DataModelRenderer.flag_inheritance_models db m = Ok None
  ∧ ∃ d own,
      dm !! name m = Some d
      ∧ ClassDefinitionRenderer.render m
          (conf_collection_name kw) (conf_bp_name kw)
          (conf_included kw) (conf_excluded kw) = Ok own
      ∧ attributes d = attributes own
      ∧ relations d = relations own
      ∧ parent_of d = None
      ∧ ((∀ m' kw' inh,
            (m', kw') ∈ models →
            DataModelRenderer.flag_inheritance_models db m' = Ok (Some inh) →
            DataModelRenderer.inh_parent inh ≠ name m) →
         polymorphic d = None)
      ∧ (∀ info, polymorphic d = Some info →
           parent info = None
           ∧ (∃ c inh, child_of db models (name m) c inh
                       ∧ on info = Some (DataModelRenderer.inh_on inh))
           ∧ ∃ ids, identities info = Some ids
                ∧ ∀ i n, ids !! i = Some n →
                    ∃ c inh, child_of db models (name m) c inh
                             ∧ name c = n
                             ∧ DataModelRenderer.inh_identity inh = i)
      ∧ (∀ c inh,
           child_of db models (name m) c inh →
           (∀ c' kw', (c', kw') ∈ models → name c' = name c → c' = c) →
           ∃ info ids,
             polymorphic d = Some info
             ∧ is_Some (on info)
             ∧ identities info = Some ids
             ∧ is_Some (ids !! DataModelRenderer.inh_identity inh)
             ∧ ((∀ c' inh', child_of db models (name m) c' inh' →
                   DataModelRenderer.inh_identity inh'
                   = DataModelRenderer.inh_identity inh →
                   name c' = name c) →
                ids !! DataModelRenderer.inh_identity inh = Some (name c))).
Proof.
  intros Hnone Hin Huniq Hrun.
  assert (Hflag := flag_inheritance_models_no_parent db m Hnone).
  split; [exact Hflag|].
  apply render_inv in Hrun as (dm0 & fl & Hfirst & Hsecond).
  destruct (first_loop_entries _ _ _ _ _ Hfirst) as [Hentries Hflagged].
  destruct (first_loop_dom _ _ _ _ _ Hfirst) as [_ Hdom].
  destruct (Hdom m kw Hin) as [d0 Hd0]. cbn [fst] in Hd0.
  destruct (Hentries _ _ Hd0)
    as (m' & kw' & own & Hin' & Hname & Hown & Ha & Hr & Hpoly).
  destruct (Huniq m' kw' Hin' Hname) as [-> ->].
  assert (Hchild : ∀ child inh, (child, inh) ∈ fl → child ≠ name m).
  { intros child inh Hc ->.
    destruct (Hflagged _ _ Hc) as (m1 & kw1 & Hin1 & Hname1 & Hflag1).
    destruct (Huniq m1 kw1 Hin1 Hname1) as [-> ->]. congruence. }
  set (sound := λ d : ModelDescriptor,
         ∀ info, polymorphic d = Some info →
           parent info = None
           ∧ (∃ c inh, child_of db models (name m) c inh
                       ∧ on info = Some (DataModelRenderer.inh_on inh))
           ∧ ∃ ids, identities info = Some ids
                ∧ ∀ i n, ids !! i = Some n →
                    ∃ c inh, child_of db models (name m) c inh
                             ∧ name c = n
                             ∧ DataModelRenderer.inh_identity inh = i).
  set (P := λ dm1 : gmap string ModelDescriptor, ∃ d,
              dm1 !! name m = Some d
              ∧ attributes d = attributes own
              ∧ relations d = relations own
              ∧ parent_of d = None
              ∧ ((∀ m' kw' inh,
                    (m', kw') ∈ models →
                    DataModelRenderer.flag_inheritance_models db m'
                    = Ok (Some inh) →
                    DataModelRenderer.inh_parent inh ≠ name m) →
                 polymorphic d = None)
              ∧ sound d).
  assert (Hstep : ∀ dm1 flagged dm2,
            flagged ∈ fl → P dm1 →
            DataModelRenderer.resolve_inheritance (fst flagged) (snd flagged)
              dm1 = Ok dm2 →
            P dm2).
  { intros dm1 [child inh] dm2 Hc (d & Hd & Hda & Hdr & Hdp & Hdn & Hds) Hstep.
    cbn [fst snd] in Hstep.
    apply resolve_inheritance_entry in Hstep as (idef & _ & _ & Hentry).
    assert (Hne : name m ≠ child).
    { intros Heq. by apply (Hchild child inh Hc). }
    destruct (Hflagged _ _ Hc) as (m1 & kw1 & Hin1 & Hname1 & Hflag1).
    exists (entry_after inh child idef (name m) d).
    rewrite Hentry, Hd, entry_after_attributes, entry_after_relations,
      entry_after_parent_of, !decide_False by done.
    do 4 (split; [done|]). split.
    - intros Hnoparent.
      rewrite entry_after_polymorphic_other; [by apply Hdn|done|].
      intros Heq. by apply (Hnoparent m1 kw1 inh Hin1 Hflag1).
    - unfold sound, entry_after.
      destruct (decide (name m = child)) as [?|_]; [done|].
      case_decide as Hp; [|exact Hds].
      assert (Hc1 : child_of db models (name m) m1 inh).
      { split; [by exists kw1|]. by split. }
      unfold record_child. cbv zeta. cbn [polymorphic set_polymorphic].
      intros info [= <-]. cbn [parent on identities].
      split; [|split].
      + destruct (polymorphic d) as [info0|] eqn:Hinfo0; [|reflexivity].
        cbn [default id]. by destruct (Hds info0 Hinfo0) as (? & _).
      + by exists m1, inh.
      + eexists. split; [reflexivity|]. intros i n Hlook.
        destruct (decide (DataModelRenderer.inh_identity inh = i))
          as [<-|Hi].
        * rewrite lookup_insert_eq in Hlook. injection Hlook as <-.
          by exists m1, inh.
        * rewrite lookup_insert_ne in Hlook by done.
          destruct (polymorphic d) as [info0|] eqn:Hinfo0;
            [|cbn [default id empty_info identities] in Hlook;
              by rewrite lookup_empty in Hlook].
          cbn [default id] in Hlook.
          destruct (Hds info0 Hinfo0) as (_ & _ & ids0 & Hids0 & Hall).
          rewrite Hids0 in Hlook. cbn [default id] in Hlook.
          by apply Hall. }
  assert (HP0 : P dm0).
  { exists d0. do 3 (split; [done|]). split; [|split; [done|]].
    - unfold parent_of. by rewrite Hpoly.
    - unfold sound. intros info Hinfo. congruence. }
  assert (HP : P dm).
  { by apply (for_each_invariant P fl _ dm0 dm Hstep HP0). }
  destruct HP as (d & Hd & Hda & Hdr & Hdp & Hdn & Hds).
  exists d, own. do 6 (split; [done|]). split; [exact Hds|].
  intros c inh ([kwc Hinc] & Hflagc & Hpc) Hcuniq.
  assert (Hcfl : (name c, inh) ∈ fl).
  { apply (first_loop_flagged_all db models meths (∅, []) (dm0, fl)
             (name c) inh Hfirst).
    - intros c' kwc' Hinc' Hnamec'.
      by rewrite (Hcuniq c' kwc' Hinc' Hnamec').
    - right. by exists c, kwc. }
  set (Q := λ dm1 : gmap string ModelDescriptor, ∃ d1 info ids,
              dm1 !! name m = Some d1
              ∧ polymorphic d1 = Some info
              ∧ identities info = Some ids
              ∧ is_Some (ids !! DataModelRenderer.inh_identity inh)).
  assert (HQ : Q dm).
  { apply (for_each_establish P Q fl
             (λ data_model flagged,
                DataModelRenderer.resolve_inheritance
                  (fst flagged) (snd flagged) data_model)
             (name c, inh) dm0 dm);
      [exact Hstep| | |exact Hcfl|exact HP0|exact Hsecond].
    - intros dm1 dm2 (d1 & Hd1 & _) Hres. cbn [fst snd] in Hres.
      apply resolve_inheritance_entry in Hres as (idef & _ & _ & Hentry).
      assert (Hne : name m ≠ name c).
      { intros Heq. by apply (Hchild (name c) inh Hcfl). }
      eexists _, _, _. rewrite Hentry, Hd1. cbn [fmap option_fmap option_map].
      split; [reflexivity|]. unfold entry_after.
      destruct (decide (name m = name c)) as [?|_]; [done|].
      destruct (decide (name m = DataModelRenderer.inh_parent inh))
        as [_|Hn]; [|by destruct Hn].
      unfold record_child. cbv zeta. cbn [polymorphic set_polymorphic identities].
      split; [reflexivity|]. split; [reflexivity|].
      rewrite lookup_insert_eq. by eexists.
    - intros dm1 [child inh'] dm2 Hc' _
        (d1 & info & ids & Hd1 & Hinfo & Hids & Hsome) Hres.
      cbn [fst snd] in Hres.
      apply resolve_inheritance_entry in Hres as (idef & _ & _ & Hentry).
      assert (Hne : name m ≠ child).
      { intros Heq. by apply (Hchild child inh' Hc'). }
      unfold Q. rewrite Hentry, Hd1. cbn [fmap option_fmap option_map].
      unfold entry_after.
      destruct (decide (name m = child)) as [?|_]; [done|].
      case_decide as Hp'.
      + eexists _, _, _. split; [reflexivity|].
        unfold record_child. cbv zeta.
        cbn [polymorphic set_polymorphic identities].
        split; [reflexivity|]. split; [reflexivity|].
        rewrite Hinfo. cbn [default id]. rewrite Hids. cbn [default id].
        apply lookup_insert_is_Some.
        destruct (decide (DataModelRenderer.inh_identity inh'
                          = DataModelRenderer.inh_identity inh));
          [by left|by right].
      + by exists d1, info, ids. }
  destruct HQ as (d1 & info & ids & Hd1 & Hinfo & Hids & Hsome).
  rewrite Hd in Hd1. injection Hd1 as <-.
  exists info, ids. split; [done|].
  destruct (Hds info Hinfo) as (_ & (c1 & inh1 & _ & Hon) & ids' & Hids' & Hall).
  split; [by rewrite Hon|]. split; [done|]. split; [done|].
  intros Hsame. destruct Hsome as [n Hn]. rewrite Hn. f_equal.
  rewrite Hids in Hids'. injection Hids' as <-.
  destruct (Hall _ _ Hn) as (c' & inh' & Hc' & <- & Hi).
  by apply (Hsame c' inh').
Qed.

Lemma no_parent_not_flagged_witness :
  DataModelRenderer.flag_inheritance_models Sample.db Sample.Animal = Ok None
  ∧ ∃ d own,
      Sample.zoo_schema !! "Animal" = Some d
      ∧ ClassDefinitionRenderer.render Sample.Animal "animals" "api" [] []
        = Ok own
      ∧ attributes d = attributes own
      ∧ relations d = relations own
      ∧ parent_of d = None
      ∧ ((∀ m' kw' inh,
            (m', kw') ∈ Sample.zoo_models →
            DataModelRenderer.flag_inheritance_models Sample.db m'
            = Ok (Some inh) →
            DataModelRenderer.inh_parent inh ≠ "Animal") →
         polymorphic d = None)
      ∧ (∀ info, polymorphic d = Some info →
           parent info = None
           ∧ (∃ c inh, child_of Sample.db Sample.zoo_models "Animal" c inh
                       ∧ on info = Some (DataModelRenderer.inh_on inh))
           ∧ ∃ ids, identities info = Some ids
                ∧ ∀ i n, ids !! i = Some n →
                    ∃ c inh, child_of Sample.db Sample.zoo_models "Animal" c inh
                             ∧ name c = n
                             ∧ DataModelRenderer.inh_identity inh = i)
      ∧ (∀ c inh,
           child_of Sample.db Sample.zoo_models "Animal" c inh →
           (∀ c' kw', (c', kw') ∈ Sample.zoo_models → name c' = name c →
                      c' = c) →
           ∃ info ids,
             polymorphic d = Some info
             ∧ is_Some (on info)
             ∧ identities info = Some ids
             ∧ is_Some (ids !! DataModelRenderer.inh_identity inh)
             ∧ ((∀ c' inh', child_of Sample.db Sample.zoo_models "Animal" c' inh' →
                   DataModelRenderer.inh_identity inh'
                   = DataModelRenderer.inh_identity inh →
                   name c' = name c) →
                ids !! DataModelRenderer.inh_identity inh = Some (name c))).
Proof.
  apply (no_parent_not_flagged Sample.db Sample.zoo_models Sample.zoo_methods
           Sample.zoo_schema Sample.Animal (Sample.conf "animals")).
  - reflexivity.
  - apply list_elem_of_In. left. reflexivity.
  - intros m' kw' Hin Hname. unfold Sample.zoo_models in Hin.
    set_unfold in Hin. destruct Hin as [Heq|[Heq|[Heq|[]]]]; simplify_eq. done.
  - vm_compute. reflexivity.
Defined.

(** C10 as stated fails: Animal declares an identity and has no eligible
    parent, and yet its descriptor carries a [polymorphic] entry, as the
    parent of Mammal. *)
Lemma parentless_model_with_polymorphic_entry :
  mapper_args Sample.Animal = Some Sample.Animal_args
  ∧ polymorphic_identity Sample.Animal_args = Some "animal"
  ∧ DataModelRenderer.find_parent Sample.db Sample.Animal = None
  ∧ polymorphic_in
      (DataModelRenderer.render Sample.db Sample.zoo_models Sample.zoo_methods)
      "Animal"
    = Some {| parent := None; on := Some "type";
              identities := Some {[ "mammal" := "Mammal" ]} |}.
Proof. repeat split; vm_compute; reflexivity. Qed.

(** ** Registration of one model at a time *)

Lemma register_model_fails (self : DataModel.State) (model : Model)
    (kwargs : Conf) :
  ∃ e, DataModel.register_model self model kwargs = DataModel.Failed e self
       ∧ (DataModel.model_renderer self = None → e = AttributeError).
Proof.
  unfold DataModel.register_model. cbv zeta.
  destruct (DataModel.model_renderer self) as [r|].
  - cbn [mbind result_bind Py.bind]. unfold DataModel.render_call.
    destruct (DataModel.class_has model "items"); eexists;
      (split; [reflexivity|discriminate]).
  - exists AttributeError. split; reflexivity.
Qed.

Lemma init_fails (self : DataModel.State) (db : DB)
    (created_apis_for : list (Model * Conf)) :
  DataModel.init self db created_apis_for = DataModel.Failed TypeError self.
Proof. reflexivity. Qed.

Lemma after_calls_init_state (calls : list DataModel.call) :
  after_calls calls = DataModel.init_state.
Proof.
  unfold after_calls.
  induction calls as [|c calls IH] using rev_ind; [reflexivity|].
  rewrite foldl_app. cbn [foldl]. rewrite IH.
  destruct c as [db l|m kw]; cbn [DataModel.run].
  - by rewrite init_fails.
  - destruct (register_model_fails DataModel.init_state m kw) as (e & -> & _).
    reflexivity.
Qed.

(** C9 fails on the code: no registration ever stores an entry, so there
    is nothing a second registration could replace.  [DataModel.init]
    builds its renderer with three arguments where [DataModelRenderer]
    takes two, and raises [TypeError] before the renderer is kept;
    [register_model] then finds no renderer to call and raises
    [AttributeError] before it writes anything.  Whatever calls of [init]
    and [register_model] are made on a new [DataModel], each of them
    raises and the object stays as [__init__] left it, with an empty
    schema and an empty registry; after Cat has been registered through
    [init] and registered again under a new configuration, the schema has
    no entry for Cat at all. *)
Theorem registration_never_stores (calls : list DataModel.call) (db : DB)
    (created_apis_for : list (Model * Conf)) (model : Model)
    (kwargs : Conf) :
  after_calls calls = DataModel.init_state
  ∧ DataModel.init (after_calls calls) db created_apis_for
    = DataModel.Failed TypeError (after_calls calls)
  ∧ DataModel.register_model (after_calls calls) model kwargs
    = DataModel.Failed AttributeError (after_calls calls)
  ∧ DataModel.data_model
      (after_calls
         [ DataModel.Init Sample.db [ (Sample.Cat, Sample.conf "cats") ];
           DataModel.Register Sample.Cat_again (Sample.conf "cats") ])
    !! "Cat" = None.
Proof.
  rewrite !after_calls_init_state. split; [reflexivity|].
  split; [apply init_fails|]. split; [|reflexivity].
  destruct (register_model_fails DataModel.init_state model kwargs)
    as (e & -> & He).
  by rewrite He.
Qed.

(** * Further properties of the renderer *)

(** ** The filter and the reflecting loops *)

Lemma occurs_append (c : ascii) (p s : string) :
  occurs c (String.append p (String c s)) = true.
Proof.
  induction p as [|c' p IH]; simpl.
  - by rewrite Ascii.eqb_refl.
  - by rewrite IH, orb_true_r.
Qed.

Lemma final_segment_cons_dot (r seg : string) :
  final_segment (String "." r) seg → final_segment r seg.
Proof.
  intros [Hocc Hshape]. split; [exact Hocc|].
  destruct Hshape as [<-|[prefix Hp]].
  - simpl in Hocc. discriminate Hocc.
  - destruct prefix as [|c' prefix]; simpl in Hp.
    + injection Hp as ->. by left.
    + injection Hp as _ ->. right. by exists prefix.
Qed.

Lemma final_segment_cons_other (c : ascii) (r seg : string) :
  Ascii.eqb c "." = false →
  final_segment (String c r) seg →
  (seg = String c r ∧ occurs "." r = false)
  ∨ final_segment r seg ∧ occurs "." r = true.
Proof.
  intros Hc [Hocc Hshape].
  destruct Hshape as [<-|[prefix Hp]].
  - left. split; [reflexivity|]. simpl in Hocc.
    by rewrite Hc in Hocc.
  - right. destruct prefix as [|c' prefix]; simpl in Hp.
    + injection Hp as -> _. by rewrite Ascii.eqb_refl in Hc.
    + injection Hp as _ ->. split; [|apply occurs_append].
      split; [exact Hocc|]. right. by exists prefix.
Qed.

Lemma split_no_sep (sep : ascii) (s : string) :
  occurs sep s = false → split sep s = [s].
Proof.
  induction s as [|c r IH]; [reflexivity|]. simpl.
  intros H. apply orb_false_iff in H as [Hc Hr].
  rewrite Hc, (IH Hr). reflexivity.
Qed.

Lemma split_with_sep (sep : ascii) (s : string) :
  occurs sep s = true → ∃ h k t, split sep s = h :: k :: t.
Proof.
  induction s as [|c r IH]; [discriminate|]. simpl. intros H.
  destruct (Ascii.eqb c sep) eqn:Hc.
  - destruct (split_snoc sep r) as (init & seg & -> & _).
    destruct init; cbn [app]; eauto.
  - cbn [orb] in H. destruct (IH H) as (h & k & t & ->). eauto.
Qed.

Lemma final_segment_unique (name seg : string) :
  final_segment name seg → last_item (split "." name) = seg.
Proof.
  revert seg. induction name as [|c r IH]; intros seg H.
  - destruct H as [_ [<-|[prefix Hp]]]; [reflexivity|].
    destruct prefix; discriminate Hp.
  - cbn [split]. destruct (Ascii.eqb c ".") eqn:Hc.
    + apply Ascii.eqb_eq in Hc. subst c.
      apply final_segment_cons_dot in H. rewrite <- (IH seg H).
      destruct (split_snoc "." r) as (init & s & -> & _).
      unfold last_item.
      change (EmptyString :: (init ++ [s])%list)
        with ((EmptyString :: init) ++ [s])%list.
      by rewrite !last_snoc.
    + apply (final_segment_cons_other _ _ _ Hc) in H as [[-> Hr]|[H Hr]].
      * by rewrite (split_no_sep _ _ Hr).
      * rewrite <- (IH seg H).
        destruct (split_with_sep _ _ Hr) as (h & k & t & ->).
        reflexivity.
Qed.

(** X1: the verdict of the filter depends on a name through its final
    dot-separated segment only: two names with the same final segment are
    both accepted or both rejected, and a qualified name is judged as its
    final segment alone would be. *)
Theorem is_valid_same_segment (included excluded : list string)
    (name name' seg : string) :
  final_segment name seg →
  final_segment name' seg →
  Filter.is_valid included excluded (Str name)
  = Filter.is_valid included excluded (Str name')
  ∧ Filter.is_valid included excluded (Str name)
    = Filter.is_valid included excluded (Str seg).
Proof.
  intros H H'. unfold Filter.is_valid.
  rewrite (final_segment_unique _ _ H), (final_segment_unique _ _ H').
  assert (Hseg : final_segment seg seg).
  { destruct H as [Ho _]. split; [exact Ho|by left]. }
  by rewrite (final_segment_unique _ _ Hseg).
Qed.

Lemma is_valid_same_segment_witness :
  Filter.is_valid ["name"] [] (Str "person.name")
  = Filter.is_valid ["name"] [] (Str "a.b.name")
  ∧ Filter.is_valid ["name"] [] (Str "person.name")
    = Filter.is_valid ["name"] [] (Str "name").
Proof.
  apply (is_valid_same_segment ["name"] [] "person.name" "a.b.name" "name").
  - split; [reflexivity|]. right. by exists "person".
  - split; [reflexivity|]. right. by exists "a.b".
Defined.

Lemma put_all_lookup_keep {A V} (key : A → string) (val : A → V)
    (keep : A → bool) (xs : list A) (d : gmap string V) (k : string) :
  is_Some (d !! k) → is_Some (put_all key val keep xs d !! k).
Proof.
  revert d. induction xs as [|x xs IH]; intros d Hk; [exact Hk|].
  cbn [put_all foldl]. apply IH. destruct (keep x); [|exact Hk].
  apply lookup_insert_is_Some. destruct (decide (key x = k)); auto.
Qed.

Lemma put_all_lookup_is_Some {A V} (key : A → string) (val : A → V)
    (keep : A → bool) (xs : list A) (d : gmap string V) (k : string) :
  is_Some (put_all key val keep xs d !! k)
  ↔ is_Some (d !! k) ∨ ∃ x, x ∈ xs ∧ keep x = true ∧ key x = k.
Proof.
  split.
  - intros [v Hv]. apply put_all_lookup_inv in Hv as [Hv|(x & Hx & Hk & Hkey & _)].
    + left. by eexists.
    + right. by exists x.
  - intros [Hd|(x & Hx & Hk & Hkey)]; [by apply put_all_lookup_keep|].
    revert d. induction xs as [|y xs IH]; intros d; [inversion Hx|].
    cbn [put_all foldl]. apply elem_of_cons in Hx as [<-|Hx].
    + apply put_all_lookup_keep. rewrite Hk, Hkey.
      rewrite lookup_insert_eq. by eexists.
    + by apply IH.
Qed.

(** X2: the attributes reflected from the columns are exactly the column
    names that pass the filter, each with the lowercased class name of the
    type of a column of that name; [render_attributes] never fails. *)
Theorem render_attributes_filtered (m : Model)
    (included excluded : list string) :
  ∃ ad,
    ClassDefinitionRenderer.render_attributes m
      (Filter.get_is_valid_validator included excluded) = Ok ad
    ∧ (∀ k, is_Some (ad !! k)
            ↔ ∃ c, c ∈ table_columns m ∧ col_name c = k
                   ∧ passes included excluded k)
    ∧ (∀ k v, ad !! k = Some v →
              ∃ c, c ∈ table_columns m ∧ col_name c = k
                   ∧ v = lower (col_type_class c)).
Proof.
  eexists. split; [apply render_attributes_put_all|]. split.
  - intros k. rewrite put_all_lookup_is_Some. split.
    + intros [He|(c & Hc & Hk & Hkey)].
      * rewrite lookup_empty in He. by destruct He.
      * exists c. subst k. split; [done|]. split; [done|].
        by apply passes_keeps.
    + intros (c & Hc & Hkey & Hp). right. exists c. subst k.
      split; [done|]. split; [|done]. by apply passes_keeps.
  - intros k v Hv. apply put_all_lookup_inv in Hv as [Hv|(c & Hc & _ & Hk & ->)].
    + by rewrite lookup_empty in Hv.
    + by exists c.
Qed.

Lemma relation_descriptor_foreign_model (r : Relationship) :
  relation_descriptor r !! "foreign_model" = Some (PStr (rel_mapper_class r)).
Proof.
  unfold relation_descriptor.
  destruct (rel_direction r), (rel_local_columns r); by simplify_map_eq.
Qed.

(** X3: when every many-to-one relationship that passes the filter has a
    local column, [render_relations] returns, and the relations it renders
    are exactly the relationship keys that pass the filter; each holds the
    name of the mapped class as foreign model and, for a many-to-one
    relationship, the key of the first local column. *)
Theorem render_relations_filtered (m : Model)
    (included excluded : list string) :
  NoDup (rel_key <$> relationships m) →
  (∀ r, r ∈ relationships m → passes included excluded (rel_key r) →
        has_local_column r) →
  ∃ fk,
    ClassDefinitionRenderer.render_relations m
      (Filter.get_is_valid_validator included excluded) = Ok fk
    ∧ (∀ k, is_Some (fk !! k)
            ↔ ∃ r, r ∈ relationships m ∧ rel_key r = k
                   ∧ passes included excluded k)
    ∧ (∀ r, r ∈ relationships m → passes included excluded (rel_key r) →
         ∃ d, fk !! rel_key r = Some d
              ∧ d !! "foreign_model" = Some (PStr (rel_mapper_class r))
              ∧ (∀ c cs, rel_direction r = MANYTOONE →
                         rel_local_columns r = c :: cs →
                         d !! "local_column" = Some (PStr c))).
Proof.
  intros Hnd Hloc. eexists.
  split; [by apply render_relations_put_all|]. split.
  - intros k. rewrite put_all_lookup_is_Some. split.
    + intros [He|(r & Hr & Hk & Hkey)].
      * rewrite lookup_empty in He. by destruct He.
      * exists r. subst k. split; [done|]. split; [done|].
        by apply passes_keeps.
    + intros (r & Hr & Hkey & Hp). right. exists r. subst k.
      split; [done|]. split; [|done]. by apply passes_keeps.
  - intros r Hr Hp. exists (relation_descriptor r). split.
    + apply put_all_lookup_kept; [done..|]. by apply passes_keeps.
    + split; [apply relation_descriptor_foreign_model|].
      intros c cs Hd Hc. unfold relation_descriptor. rewrite Hd, Hc.
      by simplify_map_eq.
Qed.

Lemma render_relations_filtered_witness :
  ∃ fk,
    ClassDefinitionRenderer.render_relations Sample.Person
      (Filter.get_is_valid_validator [] ["passport"]) = Ok fk
    ∧ (∀ k, is_Some (fk !! k)
            ↔ ∃ r, r ∈ relationships Sample.Person ∧ rel_key r = k
                   ∧ passes [] ["passport"] k)
    ∧ (∀ r, r ∈ relationships Sample.Person →
         passes [] ["passport"] (rel_key r) →
         ∃ d, fk !! rel_key r = Some d
              ∧ d !! "foreign_model" = Some (PStr (rel_mapper_class r))
              ∧ (∀ c cs, rel_direction r = MANYTOONE →
                         rel_local_columns r = c :: cs →
                         d !! "local_column" = Some (PStr c))).
Proof.
  apply (render_relations_filtered Sample.Person [] ["passport"]).
  - apply (bool_decide_unpack _). vm_compute. exact I.
  - intros r Hr _ Hd. simpl in Hr. set_unfold in Hr.
    destruct Hr as [->|[->|[->|[]]]]; discriminate.
Defined.

(** X4: a many-to-one relationship that passes the filter and has no local
    column makes [render_relations] raise [IndexError], wherever it stands
    among the relationships. *)
Theorem render_relations_raises (m : Model) (included excluded : list string)
    (r : Relationship) :
  r ∈ relationships m →
  passes included excluded (rel_key r) →
  rel_direction r = MANYTOONE →
  rel_local_columns r = [] →
  ClassDefinitionRenderer.render_relations m
    (Filter.get_is_valid_validator included excluded) = Raise IndexError.
Proof.
  intros Hin Hp Hd Hl. apply passes_keeps in Hp.
  unfold ClassDefinitionRenderer.render_relations,
    Filter.get_is_valid_validator.
  generalize (∅ : gmap string Descriptor).
  induction (relationships m) as [|r' rs IH]; intros d; [inversion Hin|].
  cbn [for_each]. rewrite is_valid_Str. cbn [mbind result_bind Py.bind].
  apply elem_of_cons in Hin as [<-|Hin].
  - rewrite Hp, Hd, Hl. reflexivity.
  - destruct (keeps included excluded (rel_key r')); [|by apply IH].
    destruct (String.eqb (direction_name (rel_direction r')) "MANYTOONE");
      [|by apply IH].
    destruct (rel_local_columns r') as [|c cs]; [reflexivity|].
    cbn [first mbind result_bind Py.bind]. by apply IH.
Qed.

Lemma render_relations_raises_witness :
  ClassDefinitionRenderer.render_relations Sample.Stray
    (Filter.get_is_valid_validator [] []) = Raise IndexError.
Proof.
  apply (render_relations_raises Sample.Stray [] [] Sample.dangling).
  - apply list_elem_of_In. right. left. reflexivity.
  - reflexivity.
  - reflexivity.
  - reflexivity.
Defined.

(** X5: for a model without hybrid properties whose relationships and
    proxies can be rendered, [ClassDefinitionRenderer.render] returns a
    descriptor with the model's primary key and the collection name it was
    given, and with neither methods nor polymorphic entry.  Under a name
    that is not a usable proxy it holds what [render_attributes] and
    [render_relations] rendered; a proxy is rendered whatever the filter
    says about its name: onto a column as an attribute, onto a
    relationship as a relation marked [is_proxy]. *)
Theorem render_composes (m : Model) (cn bp : string)
    (included excluded : list string) :
  hybrid_properties m = [] →
  (∀ r, r ∈ relationships m → passes included excluded (rel_key r) →
        has_local_column r) →
  NoDup (fst <$> class_dict m) →
  (∀ n q, (n, DProxy q) ∈ class_dict m → is_Some (remote_property q) →
          proxy_renders q) →
  ∃ d ad fk,
    ClassDefinitionRenderer.render m cn bp included excluded = Ok d
    ∧ ClassDefinitionRenderer.render_attributes m
        (Filter.get_is_valid_validator included excluded) = Ok ad
    ∧ ClassDefinitionRenderer.render_relations m
        (Filter.get_is_valid_validator included excluded) = Ok fk
    ∧ pk_name d = primary_key m
    ∧ collection_name d = cn
    ∧ methods d = None
    ∧ polymorphic d = None
    ∧ (∀ k, k ∉ fst <$> usable_proxies (class_dict m) →
            attributes d !! k = ad !! k ∧ relations d !! k = fk !! k)
    ∧ (∀ n q c cols,
         (n, DProxy q) ∈ class_dict m →
         remote_property q = Some (ColumnProperty (c :: cols)) →
         attributes d !! n = Some (lower (col_type_class c)))
    ∧ (∀ n q cls,
         (n, DProxy q) ∈ class_dict m →
         remote_property q = Some (RelationshipProperty cls) →
         ∃ desc, relations d !! n = Some desc
                 ∧ desc !! "is_proxy" = Some (PBool true)
                 ∧ desc !! "foreign_model" = Some (PStr cls)).
Proof.
  intros Hh Hloc Hnd Hok.
  unfold ClassDefinitionRenderer.render. cbv zeta.
  rewrite render_attributes_put_all, (render_relations_put_all _ _ _ Hloc),
    (render_hybrid_properties_nil _ _ Hh).
  cbn [mbind result_bind Py.bind].
  unfold update. rewrite (left_id_L ∅ (∪)).
  set (ad := put_all col_name _ _ (table_columns m) ∅).
  set (fk := put_all rel_key _ _ (relationships m) ∅).
  destruct (render_association_proxies_outcome m ad fk Hnd Hok)
    as (ad' & fk' & Hrun & Hother & Hkept).
  rewrite Hrun. cbn [mbind result_bind Py.bind fst snd].
  eexists _, ad, fk. split; [reflexivity|].
  cbn [pk_name collection_name methods polymorphic attributes relations].
  repeat (split; [reflexivity|]). split; [exact Hother|]. split.
  - intros n q c cols Hin Hq.
    assert (Hout : proxy_outcome q n ad ad' fk fk').
    { apply Hkept; [done|]. rewrite Hq. by eexists. }
    unfold proxy_outcome in Hout. rewrite Hq in Hout. apply Hout.
  - intros n q cls Hin Hq.
    assert (Hout : proxy_outcome q n ad ad' fk fk').
    { apply Hkept; [done|]. rewrite Hq. by eexists. }
    unfold proxy_outcome in Hout. rewrite Hq in Hout.
    destruct Hout as [Hfk _]. eexists. split; [exact Hfk|].
    unfold proxy_descriptor. split; by simplify_map_eq.
Qed.

Lemma render_composes_witness :
  ∃ d ad fk,
    ClassDefinitionRenderer.render Sample.Article "articles" "api"
      [] ["keywords"; "author_name"] = Ok d
    ∧ ClassDefinitionRenderer.render_attributes Sample.Article
        (Filter.get_is_valid_validator [] ["keywords"; "author_name"]) = Ok ad
    ∧ ClassDefinitionRenderer.render_relations Sample.Article
        (Filter.get_is_valid_validator [] ["keywords"; "author_name"]) = Ok fk
    ∧ pk_name d = "id"
    ∧ collection_name d = "articles"
    ∧ methods d = None
    ∧ polymorphic d = None
    ∧ (∀ k, k ∉ fst <$> usable_proxies (class_dict Sample.Article) →
            attributes d !! k = ad !! k ∧ relations d !! k = fk !! k)
    ∧ (∀ n q c cols,
         (n, DProxy q) ∈ class_dict Sample.Article →
         remote_property q = Some (ColumnProperty (c :: cols)) →
         attributes d !! n = Some (lower (col_type_class c)))
    ∧ (∀ n q cls,
         (n, DProxy q) ∈ class_dict Sample.Article →
         remote_property q = Some (RelationshipProperty cls) →
         ∃ desc, relations d !! n = Some desc
                 ∧ desc !! "is_proxy" = Some (PBool true)
                 ∧ desc !! "foreign_model" = Some (PStr cls)).
Proof.
  apply (render_composes Sample.Article "articles" "api"
           [] ["keywords"; "author_name"]).
  - reflexivity.
  - intros r Hr. inversion Hr.
  - apply (bool_decide_unpack _). vm_compute. exact I.
  - intros n q Hin Hsome. simpl in Hin. set_unfold in Hin.
    destruct Hin as [H|[H|[H|[H|[]]]]]; simplify_eq; try exact I.
    by destruct Hsome.
Defined.

(** ** Detection of the parent *)

Lemma find_parent_skip (db : DB) (post : list Class) (acc : option Class) :
  (∀ k, k ∈ post → eligible db k = false) →
  foldl (λ parent kls, if eligible db kls then Some kls else parent) acc post
  = acc.
Proof.
  revert acc. induction post as [|k post IH]; intros acc Hno; [reflexivity|].
  cbn [foldl]. rewrite (Hno k) by (by left).
  apply IH. intros k' Hk'. apply Hno. by right.
Qed.

Lemma find_parent_None (db : DB) (m : Model) :
  DataModelRenderer.find_parent db m = None
  ↔ ∀ k, k ∈ bases m → eligible db k = false.
Proof.
  unfold DataModelRenderer.find_parent.
  change (λ parent kls,
            if DataModelRenderer.issubclass kls (db_Model db)
               && negb (Nat.eqb (cls_id kls) (db_Model db))
            then Some kls else parent)
    with (λ parent kls, if eligible db kls then Some kls else parent).
  split.
  - induction (bases m) as [|k ks IH] using rev_ind; intros H k' Hk'.
    + inversion Hk'.
    + rewrite foldl_app in H. cbn [foldl] in H.
      destruct (eligible db k) eqn:Hk; [discriminate|].
      apply elem_of_app in Hk' as [Hk'|Hk']; [by apply IH|].
      apply list_elem_of_singleton in Hk'. by subst.
  - intros Hno. by apply find_parent_skip.
Qed.

(** X6: with several bases, the parent a polymorphic model is flagged with
    is the last base that is a model class other than [db.Model]; the
    discriminator recorded is the parent's [polymorphic_on], by its key
    when it is a column object. *)
Theorem flag_inheritance_models_last_base (db : DB) (m : Model)
    (args pargs : MapperArgs) (i : string) (on : PolymorphicOn)
    (pre post : list Class) (p : Class) :
  mapper_args m = Some args →
  polymorphic_identity args = Some i →
  bases m = (pre ++ p :: post)%list →
  eligible db p = true →
  (∀ k, k ∈ post → eligible db k = false) →
  cls_mapper_args p = Some pargs →
  polymorphic_on pargs = Some on →
  DataModelRenderer.find_parent db m = Some p
  ∧ DataModelRenderer.flag_inheritance_models db m
    = Ok (Some {| DataModelRenderer.inh_on := discriminator on;
                  DataModelRenderer.inh_parent := cls_name p;
                  DataModelRenderer.inh_identity := i |}).
Proof.
  intros Ha Hi Hb Hp Hpost Hpa Hon.
  assert (Hfind : DataModelRenderer.find_parent db m = Some p).
  { unfold DataModelRenderer.find_parent. rewrite Hb.
    change (λ parent kls,
              if DataModelRenderer.issubclass kls (db_Model db)
                 && negb (Nat.eqb (cls_id kls) (db_Model db))
              then Some kls else parent)
      with (λ parent kls, if eligible db kls then Some kls else parent).
    rewrite foldl_app. cbn [foldl]. rewrite Hp.
    by apply find_parent_skip. }
  split; [exact Hfind|].
  unfold DataModelRenderer.flag_inheritance_models.
  rewrite Ha. destruct args as [ai ao]. cbn in Hi. subst ai.
  rewrite Hfind, Hpa. cbn [mbind result_bind Py.bind]. rewrite Hon.
  cbn [mbind result_bind Py.bind]. by destruct on.
Qed.

Lemma flag_inheritance_models_last_base_witness :
  DataModelRenderer.find_parent Sample.db Sample.Liger
  = Some Sample.Mammal_class
  ∧ DataModelRenderer.flag_inheritance_models Sample.db Sample.Liger
    = Ok (Some {| DataModelRenderer.inh_on := "type";
                  DataModelRenderer.inh_parent := "Mammal";
                  DataModelRenderer.inh_identity := "liger" |}).
Proof.
  apply (flag_inheritance_models_last_base Sample.db Sample.Liger
           Sample.Liger_args Sample.Mammal_args "liger" (OnName "type")
           [Sample.Animal_class] [Sample.Mixin_class; Sample.Model_class]
           Sample.Mammal_class).
  - reflexivity.
  - reflexivity.
  - reflexivity.
  - reflexivity.
  - intros k Hk. set_unfold in Hk. destruct Hk as [->|[->|[]]]; reflexivity.
  - reflexivity.
  - reflexivity.
Defined.

(** X7: [flag_inheritance_models] fails in two cases only, both for a
    model that declares an identity and has a parent: the parent has no
    [__mapper_args__] ([AttributeError]) or its [__mapper_args__] have no
    [polymorphic_on] ([KeyError]).  A model without identity, or without
    parent, is never an error. *)
Theorem flag_inheritance_models_errors (db : DB) (m : Model) (e : exn) :
  DataModelRenderer.flag_inheritance_models db m = Raise e
  ↔ ∃ args i p,
      mapper_args m = Some args
      ∧ polymorphic_identity args = Some i
      ∧ DataModelRenderer.find_parent db m = Some p
      ∧ ((cls_mapper_args p = None ∧ e = AttributeError)
         ∨ ∃ pargs, cls_mapper_args p = Some pargs
                    ∧ polymorphic_on pargs = None ∧ e = KeyError).
Proof.
  unfold DataModelRenderer.flag_inheritance_models. split.
  - destruct (mapper_args m) as [[[i|] ao]|] eqn:Ha; [|discriminate..].
    destruct (DataModelRenderer.find_parent db m) as [p|] eqn:Hp;
      [|discriminate].
    destruct (cls_mapper_args p) as [pargs|] eqn:Hpa;
      cbn [mbind result_bind Py.bind].
    + destruct (polymorphic_on pargs) as [on|] eqn:Hon;
        cbn [mbind result_bind Py.bind]; [discriminate|].
      intros [= <-]. exists {| polymorphic_identity := Some i;
                              polymorphic_on := ao |}, i, p.
      repeat split; try done. right. by exists pargs.
    + intros [= <-]. exists {| polymorphic_identity := Some i;
                              polymorphic_on := ao |}, i, p.
      repeat split; try done. by left.
  - intros (args & i & p & Ha & Hi & Hp & Hcase).
    rewrite Ha. destruct args as [ai ao]. cbn in Hi. subst ai. rewrite Hp.
    destruct Hcase as [[Hpa ->]|(pargs & Hpa & Hon & ->)]; rewrite Hpa;
      cbn [mbind result_bind Py.bind]; [reflexivity|].
    by rewrite Hon.
Qed.

(** ** Resolution of one child *)

(** X8: [resolve_inheritance] fails exactly when the parent or the child
    is missing from the schema, with [KeyError]; with both present it
    returns. *)
Theorem resolve_inheritance_missing (model : string)
    (inh : DataModelRenderer.Inheritance)
    (dm : gmap string ModelDescriptor) :
  (DataModelRenderer.resolve_inheritance model inh dm = Raise KeyError
   ↔ dm !! DataModelRenderer.inh_parent inh = None ∨ dm !! model = None)
  ∧ ((∃ dm', DataModelRenderer.resolve_inheritance model inh dm = Ok dm')
     ↔ is_Some (dm !! DataModelRenderer.inh_parent inh)
       ∧ is_Some (dm !! model)).
Proof.
  destruct (dm !! DataModelRenderer.inh_parent inh) as [idef|] eqn:Hp.
  - destruct (dm !! model) as [odef|] eqn:Hm.
    + assert (Hrun := resolve_inheritance_alter model inh dm idef Hp
                        (ex_intro _ odef Hm)).
      rewrite Hrun. split; split.
      * discriminate.
      * intros [H|H]; discriminate H.
      * intros _. split; by eexists.
      * intros _. by eexists.
    + assert (Hrun : DataModelRenderer.resolve_inheritance model inh dm
                     = Raise KeyError).
      { unfold DataModelRenderer.resolve_inheritance. cbv zeta.
        rewrite (getitem_Some _ _ _ Hp). cbn [mbind result_bind Py.bind].
        unfold getitem. by rewrite Hm. }
      rewrite Hrun. split; split.
      * intros _. by right.
      * done.
      * intros [dm' H]. discriminate H.
      * intros [_ [x Hx]]. discriminate Hx.
  - assert (Hrun : DataModelRenderer.resolve_inheritance model inh dm
                   = Raise KeyError).
    { unfold DataModelRenderer.resolve_inheritance. cbv zeta.
      unfold getitem. by rewrite Hp. }
    rewrite Hrun. split; split.
    + intros _. by left.
    + done.
    + intros [dm' H]. discriminate H.
    + intros [[x Hx] _]. discriminate Hx.
Qed.

(** X9: resolving a child records it on its parent and nowhere else.  The
    parent's polymorphic entry holds the discriminator and maps the
    child's identity to the child, keeping the identities recorded before
    under other keys and the parent it named; its attributes and relations
    are untouched.  The child's polymorphic entry becomes the mere name of
    the parent, whatever it held, and every other entry of the schema is
    left as it was. *)
Theorem resolve_inheritance_records (model : string)
    (inh : DataModelRenderer.Inheritance)
    (dm : gmap string ModelDescriptor) (idef odef : ModelDescriptor) :
  dm !! DataModelRenderer.inh_parent inh = Some idef →
  dm !! model = Some odef →
  model ≠ DataModelRenderer.inh_parent inh →
  ∃ dm' idef' odef' info ids,
    DataModelRenderer.resolve_inheritance model inh dm = Ok dm'
    ∧ dm' !! DataModelRenderer.inh_parent inh = Some idef'
    ∧ polymorphic idef' = Some info
    ∧ on info = Some (DataModelRenderer.inh_on inh)
    ∧ identities info = Some ids
    ∧ ids !! DataModelRenderer.inh_identity inh = Some model
    ∧ (∀ i, i ≠ DataModelRenderer.inh_identity inh →
            ids !! i
            = default ∅ (identities (default empty_info (polymorphic idef)))
                !! i)
    ∧ parent info = parent_of idef
    ∧ attributes idef' = attributes idef
    ∧ relations idef' = relations idef
    ∧ dm' !! model = Some odef'
    ∧ polymorphic odef'
      = Some {| parent := Some (DataModelRenderer.inh_parent inh);
                on := None; identities := None |}
    ∧ (∀ n, n ≠ model → n ≠ DataModelRenderer.inh_parent inh →
            dm' !! n = dm !! n).
Proof.
  intros Hp Hm Hne.
  rewrite (resolve_inheritance_alter model inh dm idef Hp) by eauto.
  set (p := DataModelRenderer.inh_parent inh) in *.
  exists (alter (record_child inh model) p
            (alter (merge_child idef p) model dm)),
    (record_child inh model idef), (merge_child idef p odef).
  eexists _, _. split; [reflexivity|].
  split; [by rewrite lookup_alter_eq, lookup_alter_ne, Hp|].
  split; [reflexivity|]. split; [reflexivity|]. split; [reflexivity|].
  split; [by rewrite lookup_insert_eq|].
  split; [intros i Hi; by rewrite lookup_insert_ne|].
  split; [unfold parent_of; by destruct (polymorphic idef)|].
  split; [reflexivity|]. split; [reflexivity|].
  split; [by rewrite lookup_alter_ne, lookup_alter_eq, Hm|].
  split; [reflexivity|].
  intros n Hn Hnp. by rewrite !lookup_alter_ne.
Qed.

Lemma resolve_inheritance_records_witness :
  ∃ dm' idef' odef' info ids,
    DataModelRenderer.resolve_inheritance "Mammal" Sample.Mammal_inheritance
      Sample.zoo = Ok dm'
    ∧ dm' !! "Animal" = Some idef'
    ∧ polymorphic idef' = Some info
    ∧ on info = Some "type"
    ∧ identities info = Some ids
    ∧ ids !! "mammal" = Some "Mammal"
    ∧ (∀ i, i ≠ "mammal" →
            ids !! i
            = default ∅ (identities
                           (default empty_info
                              (polymorphic Sample.Animal_def))) !! i)
    ∧ parent info = parent_of Sample.Animal_def
    ∧ attributes idef' = attributes Sample.Animal_def
    ∧ relations idef' = relations Sample.Animal_def
    ∧ dm' !! "Mammal" = Some odef'
    ∧ polymorphic odef'
      = Some {| parent := Some "Animal"; on := None; identities := None |}
    ∧ (∀ n, n ≠ "Mammal" → n ≠ "Animal" → dm' !! n = Sample.zoo !! n).
Proof.
  apply (resolve_inheritance_records "Mammal" Sample.Mammal_inheritance
           Sample.zoo Sample.Animal_def Sample.Mammal_def).
  - vm_compute. reflexivity.
  - vm_compute. reflexivity.
  - discriminate.
Defined.

(** ** The composed schema *)

Lemma render_definition_fields (m : Model) (cn bp : string)
    (included excluded : list string) (d : ModelDescriptor) :
  ClassDefinitionRenderer.render m cn bp included excluded = Ok d →
  pk_name d = primary_key m ∧ collection_name d = cn ∧ methods d = None.
Proof.
  unfold ClassDefinitionRenderer.render. cbv zeta.
  destruct (ClassDefinitionRenderer.render_attributes m _) as [ad|e];
    [|discriminate].
  cbn [mbind result_bind Py.bind].
  destruct (ClassDefinitionRenderer.render_relations m _) as [fk|e];
    [|discriminate].
  cbn [mbind result_bind Py.bind].
  destruct (ClassDefinitionRenderer.render_hybrid_properties m _) as [h|e];
    [|discriminate].
  cbn [mbind result_bind Py.bind].
  destruct (ClassDefinitionRenderer.render_association_proxies m _ fk)
    as [dicts|e]; [|discriminate].
  cbn [mbind result_bind Py.bind]. by intros [= <-].
Qed.

Lemma entry_after_fields inh model idef n d :
  pk_name (entry_after inh model idef n d) = pk_name d
  ∧ collection_name (entry_after inh model idef n d) = collection_name d
  ∧ methods (entry_after inh model idef n d) = methods d.
Proof. unfold entry_after. by repeat case_decide. Qed.

Lemma second_loop_fields
    (fl : list (string * DataModelRenderer.Inheritance))
    (dm0 dm : gmap string ModelDescriptor) :
  for_each fl
    (λ data_model flagged,
       DataModelRenderer.resolve_inheritance (fst flagged) (snd flagged)
         data_model) dm0 = Ok dm →
  ∀ n,
    (is_Some (dm !! n) ↔ is_Some (dm0 !! n))
    ∧ ∀ d, dm !! n = Some d →
        ∃ d0, dm0 !! n = Some d0
              ∧ pk_name d = pk_name d0
              ∧ collection_name d = collection_name d0
              ∧ methods d = methods d0.
Proof.
  intros Hrun.
  apply (for_each_invariant
           (λ dm1, ∀ n,
              (is_Some (dm1 !! n) ↔ is_Some (dm0 !! n))
              ∧ ∀ d, dm1 !! n = Some d →
                  ∃ d0, dm0 !! n = Some d0
                        ∧ pk_name d = pk_name d0
                        ∧ collection_name d = collection_name d0
                        ∧ methods d = methods d0)
           fl
           (λ data_model flagged,
              DataModelRenderer.resolve_inheritance (fst flagged)
                (snd flagged) data_model)
           dm0 dm); [| |exact Hrun].
  - intros dm1 [child inh] dm2 _ Hinv Hstep. cbn [fst snd] in Hstep.
    apply resolve_inheritance_entry in Hstep as (idef & _ & _ & Hentry).
    intros n. destruct (Hinv n) as [Hdom Hfields]. rewrite Hentry. split.
    + rewrite <- Hdom. by rewrite fmap_is_Some.
    + intros d Hd. destruct (dm1 !! n) as [d1|] eqn:Hd1; [|discriminate].
      injection Hd as <-. destruct (Hfields d1 eq_refl) as (d0 & H0 & Hf).
      exists d0. split; [exact H0|].
      destruct (entry_after_fields inh child idef n d1) as (-> & -> & ->).
      exact Hf.
  - intros n. split; [done|]. intros d Hd. by exists d.
Qed.

Lemma first_loop_fields (db : DB) (models : list (Model * Conf))
    (meths : gmap string (gmap string Descriptor))
    (dm0 : gmap string ModelDescriptor)
    (fl : list (string * DataModelRenderer.Inheritance)) :
  for_each models (DataModelRenderer.render_model db meths) (∅, [])
  = Ok (dm0, fl) →
  ∀ n d, dm0 !! n = Some d →
    ∃ m kw ops,
      (m, kw) ∈ models ∧ name m = n
      ∧ meths !! n = Some ops
      ∧ methods d = Some ops
      ∧ pk_name d = primary_key m
      ∧ collection_name d = conf_collection_name kw.
Proof.
  intros Hrun.
  apply (for_each_invariant
           (λ st, ∀ n d, fst st !! n = Some d →
              ∃ m kw ops,
                (m, kw) ∈ models ∧ name m = n
                ∧ meths !! n = Some ops
                ∧ methods d = Some ops
                ∧ pk_name d = primary_key m
                ∧ collection_name d = conf_collection_name kw)
           models (DataModelRenderer.render_model db meths)
           (∅, []) (dm0, fl)); [| |exact Hrun].
  - intros [dm1 fl1] [m kw] [dm2 fl2] Hin Hinv Hstep.
    apply render_model_inv in Hstep
      as (own & ops & info & Hown & Hops & _ & -> & _).
    apply render_definition_fields in Hown as (Hpk & Hcn & _).
    cbn [fst] in *. intros n d Hd.
    destruct (decide (name m = n)) as [<-|Hne].
    + rewrite lookup_insert_eq in Hd. injection Hd as <-.
      exists m, kw, ops. by repeat split.
    + rewrite lookup_insert_ne in Hd by done. by apply Hinv.
  - intros n d Hd. cbn [fst] in Hd. by rewrite lookup_empty in Hd.
Qed.

Lemma render_schema_entries (db : DB) (models : list (Model * Conf))
    (meths : gmap string (gmap string Descriptor))
    (dm : gmap string ModelDescriptor) :
  DataModelRenderer.render db models meths = Ok dm →
  (∀ n, is_Some (dm !! n) ↔ ∃ m kw, (m, kw) ∈ models ∧ name m = n)
  ∧ (∀ n d, dm !! n = Some d →
       ∃ m kw ops,
         (m, kw) ∈ models ∧ name m = n
         ∧ meths !! n = Some ops
         ∧ methods d = Some ops
         ∧ pk_name d = primary_key m
         ∧ collection_name d = conf_collection_name kw).
Proof.
  intros Hrun. apply render_inv in Hrun as (dm0 & fl & Hfirst & Hsecond).
  assert (Hf := first_loop_fields _ _ _ _ _ Hfirst).
  assert (Hs := second_loop_fields _ _ _ Hsecond).
  destruct (first_loop_dom _ _ _ _ _ Hfirst) as [_ Hdom]. cbn [fst] in Hdom.
  split.
  - intros n. destruct (Hs n) as [-> _]. split.
    + intros [d Hd]. destruct (Hf n d Hd) as (m & kw & _ & Hin & Hn & _).
      by exists m, kw.
    + intros (m & kw & Hin & <-). by apply (Hdom m kw).
  - intros n d Hd. destruct (Hs n) as [_ Hfields].
    destruct (Hfields d Hd) as (d0 & Hd0 & -> & -> & ->).
    by apply Hf.
Qed.


(** X10: when [DataModelRenderer.render] returns, the schema has one entry
    per model name given, and no other; the entry of a name holds the
    method list the method renderer has for that name, and the primary key
    and collection name of a model of that name. *)
Theorem render_entries (db : DB) (models : list (Model * Conf))
    (meths : gmap string (gmap string Descriptor))
    (dm : gmap string ModelDescriptor) :
  DataModelRenderer.render db models meths = Ok dm →
  (∀ n, is_Some (dm !! n) ↔ ∃ m kw, (m, kw) ∈ models ∧ name m = n)
  ∧ (∀ n d, dm !! n = Some d →
       ∃ m kw ops,
         (m, kw) ∈ models ∧ name m = n
         ∧ meths !! n = Some ops
         ∧ methods d = Some ops
         ∧ pk_name d = primary_key m
         ∧ collection_name d = conf_collection_name kw).
Proof. apply render_schema_entries. Qed.

Lemma render_entries_witness :
  (∀ n, is_Some (Sample.zoo_schema !! n)
        ↔ ∃ m kw, (m, kw) ∈ Sample.zoo_models ∧ name m = n)
  ∧ (∀ n d, Sample.zoo_schema !! n = Some d →
       ∃ m kw ops,
         (m, kw) ∈ Sample.zoo_models ∧ name m = n
         ∧ Sample.zoo_methods !! n = Some ops
         ∧ methods d = Some ops
         ∧ pk_name d = primary_key m
         ∧ collection_name d = conf_collection_name kw).
Proof.
  apply (render_entries Sample.db Sample.zoo_models Sample.zoo_methods
           Sample.zoo_schema).
  vm_compute. reflexivity.
Defined.

(** ** Order of the models *)

Lemma render_model_fwd (db : DB)
    (meths : gmap string (gmap string Descriptor))
    (dm : gmap string ModelDescriptor)
    (fl : list (string * DataModelRenderer.Inheritance))
    (m : Model) (kw : Conf) (own : ModelDescriptor)
    (ops : gmap string Descriptor)
    (info : option DataModelRenderer.Inheritance) :
  ClassDefinitionRenderer.render m
    (conf_collection_name kw) (conf_bp_name kw)
    (conf_included kw) (conf_excluded kw) = Ok own →
  meths !! name m = Some ops →
  DataModelRenderer.flag_inheritance_models db m = Ok info →
  DataModelRenderer.render_model db meths (dm, fl) (m, kw)
  = Ok (<[name m := set_methods own ops]> dm,
        match info with
        | Some i => odict_set fl (name m) i
        | None => fl
        end).
Proof.
  intros Hown Hops Hflag. unfold DataModelRenderer.render_model. cbv zeta.
  cbn [fst snd]. rewrite Hown. cbn [mbind result_bind Py.bind].
  rewrite (getitem_Some _ _ _ Hops). cbn [mbind result_bind Py.bind].
  rewrite Hflag. reflexivity.
Qed.

Lemma first_loop_perm (db : DB)
    (meths : gmap string (gmap string Descriptor))
    (l l' : list (Model * Conf)) :
  l ≡ₚ l' →
  NoDup ((λ item, name (fst item)) <$> l) →
  (∀ m kw, (m, kw) ∈ l →
           DataModelRenderer.flag_inheritance_models db m = Ok None) →
  ∀ st st',
    for_each l (DataModelRenderer.render_model db meths) st = Ok st' →
    for_each l' (DataModelRenderer.render_model db meths) st = Ok st'.
Proof.
  induction 1 as [|x l l' Hperm IH|x y l|l l' l'' Hp1 IH1 Hp2 IH2];
    intros Hnd Hflag st st' Hrun.
  - exact Hrun.
  - cbn [for_each] in *.
    destruct (DataModelRenderer.render_model db meths st x) as [s1|e];
      [|discriminate].
    cbn [Py.bind] in *. rewrite fmap_cons in Hnd.
    apply NoDup_cons in Hnd as [_ Hnd]. apply IH; [done| |done].
    intros m kw Hin. apply (Hflag m kw). by right.
  - cbn [for_each] in *. destruct st as [dm fl].
    destruct x as [mx kx], y as [my ky].
    destruct (DataModelRenderer.render_model db meths (dm, fl) (my, ky))
      as [[dm1 fl1]|e] eqn:Hy; [|discriminate].
    cbn [Py.bind] in Hrun.
    destruct (DataModelRenderer.render_model db meths (dm1, fl1) (mx, kx))
      as [[dm2 fl2]|e] eqn:Hx; [|discriminate].
    cbn [Py.bind] in Hrun.
    apply render_model_inv in Hy
      as (owny & opsy & infoy & Hyo & Hyp & Hyf & -> & ->).
    apply render_model_inv in Hx
      as (ownx & opsx & infox & Hxo & Hxp & Hxf & -> & ->).
    assert (Hfx : infox = None).
    { assert (H := Hflag mx kx). rewrite Hxf in H.
      assert (Ok infox = Ok None) as [= ->]; [|done].
      apply H. right. by left. }
    assert (Hfy : infoy = None).
    { assert (H := Hflag my ky). rewrite Hyf in H.
      assert (Ok infoy = Ok None) as [= ->]; [|done].
      apply H. by left. }
    subst infox infoy.
    rewrite (render_model_fwd db meths dm fl mx kx ownx opsx None Hxo Hxp Hxf).
    cbn [Py.bind].
    rewrite (render_model_fwd db meths _ fl my ky owny opsy None Hyo Hyp Hyf).
    cbn [Py.bind]. rewrite insert_insert_ne; [exact Hrun|].
    rewrite !fmap_cons in Hnd. cbn [fst] in Hnd.
    apply NoDup_cons in Hnd as [Hne _]. intros Heq. apply Hne.
    rewrite Heq. by left.
  - apply IH2.
    + by rewrite <- Hp1.
    + intros m kw Hin. apply (Hflag m kw). by rewrite Hp1.
    + by apply IH1.
Qed.

(** X11: without inheritance the composed schema does not depend on the
    order of the models.  When the model names are distinct and no model
    is flagged, rendering a reordering of the collection returns the same
    schema. *)
Theorem render_order_independent (db : DB) (models models' : list (Model * Conf))
    (meths : gmap string (gmap string Descriptor))
    (dm : gmap string ModelDescriptor) :
  models ≡ₚ models' →
  NoDup ((λ item, name (fst item)) <$> models) →
  (∀ m kw, (m, kw) ∈ models →
           DataModelRenderer.flag_inheritance_models db m = Ok None) →
  DataModelRenderer.render db models meths = Ok dm →
  DataModelRenderer.render db models' meths = Ok dm.
Proof.
  intros Hperm Hnd Hflag Hrun.
  apply render_inv in Hrun as (dm0 & fl & Hfirst & Hsecond).
  destruct (first_loop_entries _ _ _ _ _ Hfirst) as [_ Hflagged].
  assert (Hfl : fl = []).
  { destruct fl as [|[n inh] fl]; [reflexivity|].
    destruct (Hflagged n inh) as (m & kw & Hin & _ & Hf); [by left|].
    rewrite (Hflag m kw Hin) in Hf. discriminate Hf. }
  subst fl. cbn [for_each] in Hsecond. injection Hsecond as <-.
  unfold DataModelRenderer.render.
  rewrite (first_loop_perm db meths models models' Hperm Hnd Hflag _ _ Hfirst).
  reflexivity.
Qed.

Lemma render_order_independent_witness :
  DataModelRenderer.render Sample.db
    [ (Sample.Article, Sample.conf "articles");
      (Sample.Person, Sample.conf "people") ]
    Sample.office_methods
  = Ok Sample.office_schema.
Proof.
  apply (render_order_independent Sample.db Sample.office).
  - apply perm_swap.
  - apply (bool_decide_unpack _). vm_compute. exact I.
  - intros m kw Hin. unfold Sample.office in Hin. set_unfold in Hin.
    destruct Hin as [Heq|[Heq|[]]]; simplify_eq; reflexivity.
  - vm_compute. reflexivity.
Defined.

(** ** A child of a root model *)

Lemma first_loop_flagged (db : DB) (models : list (Model * Conf))
    (meths : gmap string (gmap string Descriptor))
    (st st' : gmap string ModelDescriptor
              * list (string * DataModelRenderer.Inheritance)) :
  for_each models (DataModelRenderer.render_model db meths) st = Ok st' →
  (∀ n i, (n, i) ∈ snd st →
          n ∉ (λ item, name (fst item)) <$> models → (n, i) ∈ snd st')
  ∧ (NoDup ((λ item, name (fst item)) <$> models) →
     ∀ m kw inh,
       (m, kw) ∈ models →
       DataModelRenderer.flag_inheritance_models db m = Ok (Some inh) →
       (name m, inh) ∈ snd st').
Proof.
  revert st. induction models as [|[m0 kw0] models IH]; intros st Hrun.
  - injection Hrun as <-. split; [done|]. intros _ m kw inh Hin.
    inversion Hin.
  - cbn [for_each] in Hrun.
    destruct (DataModelRenderer.render_model db meths st (m0, kw0))
      as [[dm1 fl1]|e] eqn:Hstep; [|discriminate].
    cbn [Py.bind] in Hrun. destruct st as [dm fl].
    apply render_model_inv in Hstep
      as (own & ops & info & _ & _ & Hflag & -> & ->).
    destruct (IH _ Hrun) as [Hkeep Hnew]. cbn [fst snd] in *.
    rewrite fmap_cons. cbn [fst]. split.
    + intros n i Hin Hn. apply not_elem_of_cons in Hn as [Hne Hn].
      apply Hkeep; [|done]. destruct info as [i0|]; [|done].
      by apply odict_set_other.
    + intros Hnd m kw inh Hin Hf. apply NoDup_cons in Hnd as [Hfresh Hnd].
      apply elem_of_cons in Hin as [[= -> ->]|Hin].
      * rewrite Hflag in Hf. injection Hf as ->.
        apply Hkeep; [apply odict_set_in|done].
      * by apply (Hnew Hnd m kw).
Qed.

(** X12: a child whose parent is a root of the hierarchy receives the
    parent's fields in every order of the collection.  When the model
    names are distinct, the child is flagged with a parent that is not
    flagged itself, and the schema is composed, the child's entry holds
    every attribute and relation of the parent's own rendering, with the
    parent's value, and names the parent. *)
Theorem child_of_root_inherits (db : DB) (models : list (Model * Conf))
    (meths : gmap string (gmap string Descriptor))
    (dm : gmap string ModelDescriptor)
    (c p : Model) (kwc kwp : Conf) (inh : DataModelRenderer.Inheritance)
    (own : ModelDescriptor) :
  NoDup ((λ item, name (fst item)) <$> models) →
  (c, kwc) ∈ models →
  (p, kwp) ∈ models →
  DataModelRenderer.flag_inheritance_models db c = Ok (Some inh) →
  DataModelRenderer.inh_parent inh = name p →
  DataModelRenderer.flag_inheritance_models db p = Ok None →
  ClassDefinitionRenderer.render p
    (conf_collection_name kwp) (conf_bp_name kwp)
    (conf_included kwp) (conf_excluded kwp) = Ok own →
  DataModelRenderer.render db models meths = Ok dm →
  ∃ d,
    dm !! name c = Some d
    ∧ (∀ k v, attributes own !! k = Some v → attributes d !! k = Some v)
    ∧ (∀ k v, relations own !! k = Some v → relations d !! k = Some v)
    ∧ parent_of d = Some (name p).
Proof.
  intros Hnd Hc Hp Hfc Hpar Hfp Hown Hrun.
  apply render_inv in Hrun as (dm0 & fl & Hfirst & Hsecond).
  destruct (first_loop_entries _ _ _ _ _ Hfirst) as [Hentries Hflagged].
  destruct (first_loop_dom _ _ _ _ _ Hfirst) as [_ Hdom]. cbn [fst] in Hdom.
  destruct (first_loop_flagged _ _ _ _ _ Hfirst) as [_ Hfl].
  cbn [snd] in Hfl. specialize (Hfl Hnd).
  assert (Huniq : ∀ m1 kw1 m2 kw2,
            (m1, kw1) ∈ models → (m2, kw2) ∈ models → name m1 = name m2 →
            m1 = m2 ∧ kw1 = kw2).
  { clear -Hnd. induction models as [|[m0 kw0] models IH];
      intros m1 kw1 m2 kw2 H1 H2 Heq; [inversion H1|].
    rewrite fmap_cons in Hnd. cbn [fst] in Hnd.
    apply NoDup_cons in Hnd as [Hfresh Hnd].
    apply elem_of_cons in H1 as [[= -> ->]|H1];
      apply elem_of_cons in H2 as [[= -> ->]|H2].
    - done.
    - destruct Hfresh. rewrite Heq. apply list_elem_of_fmap.
      by exists (m2, kw2).
    - destruct Hfresh. rewrite <- Heq. apply list_elem_of_fmap.
      by exists (m1, kw1).
    - by apply IH. }
  assert (Hp0 : ∃ d, dm0 !! name p = Some d
                     ∧ attributes d = attributes own
                     ∧ relations d = relations own).
  { destruct (Hdom p kwp Hp) as [d Hd]. exists d. split; [exact Hd|].
    destruct (Hentries _ _ Hd) as (m & kw & o & Hin & Hn & Ho & Ha & Hr & _).
    destruct (Huniq m kw p kwp Hin Hp Hn) as [-> ->].
    rewrite Hown in Ho. injection Ho as <-. done. }
  assert (Hchild : ∀ n i, (n, i) ∈ fl → n ≠ name p).
  { intros n i Hin ->.
    destruct (Hflagged _ _ Hin) as (m & kw & Hm & Hn & Hf).
    destruct (Huniq m kw p kwp Hm Hp Hn) as [-> _]. congruence. }
  assert (Hsame : ∀ i, (name c, i) ∈ fl → i = inh).
  { intros i Hin.
    destruct (Hflagged _ _ Hin) as (m & kw & Hm & Hn & Hf).
    destruct (Huniq m kw c kwc Hm Hc Hn) as [-> _]. congruence. }
  apply (for_each_establish
           (λ dm1, ∃ d, dm1 !! name p = Some d
                        ∧ attributes d = attributes own
                        ∧ relations d = relations own)
           (λ dm1, ∃ d, dm1 !! name c = Some d
                        ∧ (∀ k v, attributes own !! k = Some v →
                                  attributes d !! k = Some v)
                        ∧ (∀ k v, relations own !! k = Some v →
                                  relations d !! k = Some v)
                        ∧ parent_of d = Some (name p))
           fl
           (λ data_model flagged,
              DataModelRenderer.resolve_inheritance (fst flagged)
                (snd flagged) data_model)
           (name c, inh) dm0 dm); [| | |by apply (Hfl c kwc)|exact Hp0|exact Hsecond].
  - intros dm1 [n i] dm2 Hin (d & Hd & Ha & Hr) Hstep. cbn [fst snd] in Hstep.
    apply resolve_inheritance_entry in Hstep as (idef & _ & _ & Hentry).
    exists (entry_after i n idef (name p) d).
    rewrite Hentry, Hd, entry_after_attributes, entry_after_relations.
    assert (Hne : name p ≠ n).
    { intros Heq. exact (Hchild _ _ Hin (eq_sym Heq)). }
    by rewrite !decide_False.
  - intros dm1 dm2 (dp & Hdp & Ha & Hr) Hstep. cbn [fst snd] in Hstep.
    apply resolve_inheritance_entry in Hstep as (idef & Hidef & [d Hd] & Hentry).
    rewrite Hpar, Hdp in Hidef. injection Hidef as <-.
    exists (entry_after inh (name c) dp (name c) d).
    rewrite Hentry, Hd, entry_after_attributes, entry_after_relations,
      entry_after_parent_of, !decide_True, Ha, Hr, Hpar by done.
    repeat split; try done; intros k v Hk; by apply lookup_union_Some_l.
  - intros dm1 [n i] dm2 Hin (dp & Hdp & Ha & Hr) (d & Hd & Hda & Hdr & Hdp')
      Hstep. cbn [fst snd] in Hstep.
    apply resolve_inheritance_entry in Hstep as (idef & Hidef & _ & Hentry).
    exists (entry_after i n idef (name c) d).
    rewrite Hentry, Hd, entry_after_attributes, entry_after_relations,
      entry_after_parent_of.
    split; [done|]. destruct (decide (name c = n)) as [<-|Hne]; [|done].
    rewrite (Hsame i Hin) in *. rewrite Hpar, Hdp in Hidef.
    injection Hidef as <-. rewrite Ha, Hr, Hpar.
    repeat split; try done; intros k v Hk; by apply lookup_union_Some_l.
Qed.

Lemma child_of_root_inherits_witness :
  ∃ d,
    Sample.zoo_reversed_schema !! "Mammal" = Some d
    ∧ (∀ k v, attributes Sample.Animal_own !! k = Some v →
              attributes d !! k = Some v)
    ∧ (∀ k v, relations Sample.Animal_own !! k = Some v →
              relations d !! k = Some v)
    ∧ parent_of d = Some "Animal".
Proof.
  apply (child_of_root_inherits Sample.db Sample.zoo_reversed
           Sample.zoo_methods Sample.zoo_reversed_schema
           Sample.Mammal Sample.Animal
           (Sample.conf "mammals") (Sample.conf "animals")
           Sample.Mammal_inheritance Sample.Animal_own).
  - apply (bool_decide_unpack _). vm_compute. exact I.
  - apply list_elem_of_In. right. left. reflexivity.
  - apply list_elem_of_In. right. right. left. reflexivity.
  - reflexivity.
  - reflexivity.
  - reflexivity.
  - vm_compute. reflexivity.
  - vm_compute. reflexivity.
Defined.

(** ** The operations of a model *)

Lemma prefix_cons (a b : ascii) (p s : string) :
  String.prefix (String a p) (String b s)
  = if ascii_dec a b then String.prefix p s else false.
Proof. reflexivity. Qed.

(** X13: the operations reflected are exactly the functions of the model
    whose name is exposed.  A name starting with two underscores is never
    listed; a name starting with one is listed only when internal
    functions are asked for; every other function is listed in both
    cases. *)
Theorem compile_method_list_exposed (include_internal : bool) (m : Model)
    (n : string) :
  (is_Some (MethodDefinitionRenderer.compile_method_list include_internal m
              !! n)
   ↔ ∃ params, (n, params) ∈ functions m
               ∧ exposed include_internal n = true)
  ∧ (startswith n "__" = true → exposed include_internal n = false)
  ∧ (startswith n "__" = false → startswith n "_" = true →
     exposed include_internal n = include_internal)
  ∧ (startswith n "_" = false → exposed include_internal n = true).
Proof.
  split; [|split; [|split]].
  - rewrite compile_method_list_put_all, put_all_lookup_is_Some. split.
    + intros [He|([n' params] & Hin & Hk & Hn)].
      * rewrite lookup_empty in He. by destruct He.
      * cbn [fst] in *. subst n'. by exists params.
    + intros (params & Hin & He). right. by exists (n, params).
  - intros H. unfold exposed. by rewrite H.
  - intros H2 H1. unfold exposed. rewrite H2, H1.
    by destruct include_internal.
  - intros H1. unfold exposed. rewrite H1.
    assert (H2 : startswith n "__" = false).
    { unfold startswith in *. destruct n as [|a n]; [reflexivity|].
      rewrite prefix_cons in *.
      destruct (ascii_dec "_" a); [|reflexivity].
      destruct n; discriminate H1. }
    by rewrite H2.
Qed.

Lemma classify_fold (sig : MethodDefinitionRenderer.Signature)
    (params : list Param) :
  MethodDefinitionRenderer.required
    (foldl MethodDefinitionRenderer.classify sig params)
  = (MethodDefinitionRenderer.required sig ++ names_of is_required params)%list
  ∧ MethodDefinitionRenderer.optional
      (foldl MethodDefinitionRenderer.classify sig params)
    = (MethodDefinitionRenderer.optional sig
       ++ names_of is_optional params)%list
  ∧ MethodDefinitionRenderer.argsvar
      (foldl MethodDefinitionRenderer.classify sig params)
    = match last (names_of (is_variadic VAR_POSITIONAL) params) with
      | Some n => Some n
      | None => MethodDefinitionRenderer.argsvar sig
      end
  ∧ MethodDefinitionRenderer.kwargsvar
      (foldl MethodDefinitionRenderer.classify sig params)
    = match last (names_of (is_variadic VAR_KEYWORD) params) with
      | Some n => Some n
      | None => MethodDefinitionRenderer.kwargsvar sig
      end.
Proof.
  revert sig. induction params as [|p ps IH]; intros sig.
  - unfold names_of. cbn. by rewrite !app_nil_r.
  - cbn [foldl]. destruct (IH (MethodDefinitionRenderer.classify sig p))
      as (-> & -> & -> & ->).
    unfold names_of, is_required, is_optional, is_plain, is_variadic,
      MethodDefinitionRenderer.classify.
    cbn [List.filter].
    destruct (String.eqb (param_name p) "self"); cbn [negb andb];
      [done|].
    destruct (param_kind p), (param_has_default p);
      cbn [negb andb fmap list_fmap MethodDefinitionRenderer.required
           MethodDefinitionRenderer.optional MethodDefinitionRenderer.argsvar
           MethodDefinitionRenderer.kwargsvar];
      rewrite <- ?app_assoc; cbn [app];
      repeat split; try reflexivity;
      try (by destruct (list_fmap _ _ _ (List.filter _ ps)) as [|? [|? ?]]);
      match goal with
      | |- context [last (?x :: ?l)] =>
          destruct l as [|y l'] eqn:El; [reflexivity|];
          change (last (x :: y :: l')) with (last (y :: l'));
          destruct (last (y :: l')) eqn:Hl; [reflexivity|];
          by apply last_None in Hl
      end.
Qed.

Lemma method_list_lookup (include_internal : bool) (m : Model)
    (fname : string) (params : list Param) :
  NoDup (fst <$> functions m) →
  (fname, params) ∈ functions m →
  exposed include_internal fname = true →
  MethodDefinitionRenderer.compile_method_list include_internal m !! fname
  = Some (method_descriptor params).
Proof.
  intros Hnd Hin Hexp. rewrite compile_method_list_put_all.
  by apply (put_all_lookup_kept fst (λ nf, method_descriptor (snd nf))
              (λ nf, exposed include_internal (fst nf))
              (functions m) ∅ (fname, params)).
Qed.

(** X14: the descriptor of an exposed function lists under [args] the
    names of its parameters without default and under [kwargs] the names
    of those with a default, each in declaration order, the receiver
    [self] and the variadic parameters left out; [argsvar] and [kwargsvar]
    hold the name of the last variadic parameter of their kind, or null. *)
Theorem compile_method_list_signature (include_internal : bool) (m : Model)
    (fname : string) (params : list Param) :
  NoDup (fst <$> functions m) →
  (fname, params) ∈ functions m →
  exposed include_internal fname = true →
  ∃ d,
    MethodDefinitionRenderer.compile_method_list include_internal m !! fname
    = Some d
    ∧ d !! "args" = Some (PList (names_of is_required params))
    ∧ d !! "kwargs" = Some (PList (names_of is_optional params))
    ∧ d !! "argsvar"
      = Some (of_option (last (names_of (is_variadic VAR_POSITIONAL) params)))
    ∧ d !! "kwargsvar"
      = Some (of_option (last (names_of (is_variadic VAR_KEYWORD) params))).
Proof.
  intros Hnd Hin Hexp. exists (method_descriptor params).
  split; [by apply method_list_lookup|].
  unfold method_descriptor, signature_of.
  destruct (classify_fold
              {| MethodDefinitionRenderer.required := [];
                 MethodDefinitionRenderer.optional := [];
                 MethodDefinitionRenderer.argsvar := None;
                 MethodDefinitionRenderer.kwargsvar := None |} params)
    as (-> & -> & -> & ->).
  cbn [app MethodDefinitionRenderer.argsvar MethodDefinitionRenderer.kwargsvar].
  repeat split; simplify_map_eq; try done.
  - by destruct (last (names_of (is_variadic VAR_POSITIONAL) params)).
  - by destruct (last (names_of (is_variadic VAR_KEYWORD) params)).
Qed.

Lemma compile_method_list_signature_witness :
  ∃ d,
    MethodDefinitionRenderer.compile_method_list false Sample.Person !! "greet"
    = Some d
    ∧ d !! "args" = Some (PList ["other"])
    ∧ d !! "kwargs" = Some (PList ["loud"])
    ∧ d !! "argsvar" = Some PNone
    ∧ d !! "kwargsvar" = Some PNone.
Proof.
  apply (compile_method_list_signature false Sample.Person "greet"
           (snd Sample.greet)).
  - apply (bool_decide_unpack _). vm_compute. exact I.
  - apply list_elem_of_In. left. reflexivity.
  - reflexivity.
Defined.

Lemma method_renderer_lookup (include_internal : bool) (ms : list Model)
    (m : Model) :
  NoDup (name <$> ms) → m ∈ ms →
  foldl (MethodDefinitionRenderer.render include_internal) ∅ ms !! name m
  = Some (MethodDefinitionRenderer.compile_method_list include_internal m).
Proof.
  intros Hnd Hin.
  change (foldl (MethodDefinitionRenderer.render include_internal) ∅ ms)
    with (put_all name
            (MethodDefinitionRenderer.compile_method_list include_internal)
            (λ _, true) ms ∅).
  by apply put_all_lookup_kept.
Qed.

(** X15: the two renderers compose.  When the method renderer has rendered
    every model of the collection and the model names are distinct, the
    entry of each model in the composed schema holds, under [methods], the
    method list compiled for that model. *)
Theorem render_attaches_methods (db : DB) (models : list (Model * Conf))
    (include_internal : bool) (dm : gmap string ModelDescriptor)
    (m : Model) (kw : Conf) :
  NoDup ((λ item, name (fst item)) <$> models) →
  (m, kw) ∈ models →
  DataModelRenderer.render db models
    (foldl (MethodDefinitionRenderer.render include_internal) ∅
       (fst <$> models)) = Ok dm →
  ∃ d,
    dm !! name m = Some d
    ∧ methods d
      = Some (MethodDefinitionRenderer.compile_method_list include_internal m).
Proof.
  intros Hnd Hin Hrun.
  destruct (render_schema_entries _ _ _ _ Hrun) as [Hdom Hfields].
  destruct (proj2 (Hdom (name m))) as [d Hd]; [by exists m, kw|].
  exists d. split; [exact Hd|].
  destruct (Hfields _ _ Hd) as (m' & kw' & ops & _ & _ & Hops & -> & _).
  rewrite method_renderer_lookup in Hops.
  - by injection Hops as <-.
  - by rewrite <- list_fmap_compose.
  - apply list_elem_of_fmap. by exists (m, kw).
Qed.

Lemma render_attaches_methods_witness :
  ∃ d,
    Sample.office_schema !! "Person" = Some d
    ∧ methods d
      = Some (MethodDefinitionRenderer.compile_method_list false Sample.Person).
Proof.
  apply (render_attaches_methods Sample.db Sample.office false
           Sample.office_schema Sample.Person (Sample.conf "people")).
  - apply (bool_decide_unpack _). vm_compute. exact I.
  - apply list_elem_of_In. left. reflexivity.
  - vm_compute. reflexivity.
Defined.
